(** * deutsch-a2-trainer: the lesson runner of [src/App.jsx]

    A shallow embedding of the pure helpers and of the state transitions of
    the [App] component, and the properties of its day gate, quiz scoring,
    output evaluator, progress store and speech queue.

    Conventions of the embedding.
    - A JS string is a [string] whose characters are UTF-16 code units below
      256 (the Latin-1 range, which holds the German letters of the lessons):
      one [ascii] is one code unit, so [length] is the JS [length].
    - A JS number that counts or indexes is a [Z] (or a [nat] where it is an
      array index); a quiz ratio is a [Q], and [/] is the exact quotient.
    - React state is passed explicitly: a handler is a function from the
      state of the render it closes over to the next state. *)

From Stdlib Require Import ZArith QArith Ascii String List Bool Lia.
From Stdlib Require Import DecimalString DecimalNat.
From stdpp Require Import base option list sorting gmap strings.

Local Open Scope Z_scope.
Local Open Scope string_scope.

(** ** JS string primitives *)

Module Js.

(** [String.prototype.toLowerCase] on one Latin-1 code unit: A-Z and the
    accented capitals U+00C0..U+00DE (the multiplication sign U+00D7
    excepted) move up by 32; every other unit, the sharp s among them, is
    its own lower case. *)
Definition toLowerCase_unit (c : ascii) : ascii :=
  let n := nat_of_ascii c in
  if ((65 <=? n)%nat && (n <=? 90)%nat)
     || ((192 <=? n)%nat && (n <=? 222)%nat && negb (n =? 215)%nat)
  then ascii_of_nat (n + 32) else c.

Fixpoint toLowerCase (s : string) : string :=
  match s with
  | EmptyString => EmptyString
  | String c s' => String (toLowerCase_unit c) (toLowerCase s')
  end.

(** White space of [trim] in the Latin-1 range: TAB, LF, VT, FF, CR, SP and
    the no-break space. *)
Definition isWhiteSpace (c : ascii) : bool :=
  let n := nat_of_ascii c in
  ((9 <=? n)%nat && (n <=? 13)%nat) || (n =? 32)%nat || (n =? 160)%nat.

Fixpoint trimStart (s : string) : string :=
  match s with
  | EmptyString => EmptyString
  | String c s' => if isWhiteSpace c then trimStart s' else s
  end.

Fixpoint trimEnd (s : string) : string :=
  match s with
  | EmptyString => EmptyString
  | String c s' =>
      match trimEnd s' with
      | EmptyString => if isWhiteSpace c then EmptyString else String c EmptyString
      | r => String c r
      end
  end.

Definition trim (s : string) : string := trimEnd (trimStart s).

(** [t.includes(w)]: [w] is a prefix of some suffix of [t]. *)
Fixpoint includes (t w : string) : bool :=
  String.prefix w t ||
  match t with
  | EmptyString => false
  | String _ t' => includes t' w
  end.

(** The separator class of the regular expression [/[.!?]+/]. *)
Definition isTerminator (c : ascii) : bool :=
  (c =? ".")%char || (c =? "!")%char || (c =? "?")%char.

Definition startsWithTerminator (s : string) : bool :=
  match s with
  | EmptyString => false
  | String c _ => isTerminator c
  end.

(** [s.split(/[.!?]+/g)]: the pieces between the maximal runs of
    terminators; a run at either end leaves an empty piece there, and the
    empty string splits into one empty piece. *)
Fixpoint split_terminators (s : string) : list string :=
  match s with
  | EmptyString => [EmptyString]
  | String c s' =>
      if isTerminator c then
        if startsWithTerminator s' then split_terminators s'
        else EmptyString :: split_terminators s'
      else
        match split_terminators s' with
        | piece :: pieces => String c piece :: pieces
        | [] => [String c EmptyString]
        end
  end.

(** The truth value of a string: [Boolean(s)]. *)
Definition truthy (s : string) : bool :=
  match s with EmptyString => false | _ => true end.

(** The decimal numeral of an array index, as a template literal prints
    it. *)
Definition numeral (n : nat) : string :=
  NilEmpty.string_of_uint (Nat.to_uint n).

End Js.

(** ** The lesson content: one entry of [dayPlans.json] *)

Record VocabEntry := { de : string; en : string }.

Record VocabQuestion :=
  { word : string; vq_choices : list string; answer : string }.

(** A grammar or listening question: the JSON fields [q], [choices] and
    [a]. *)
Record Question := { q_q : string; choices : list string; q_a : string }.

(** A listening segment: the JSON fields [id], [title], [text], [repeat]
    and [quiz]. [seg_quiz] is [None] when the segment has no
    [quiz] field, which [flattenListeningQuiz] reads as the empty list. *)
Record Segment :=
  { seg_id : Z; seg_title : string; seg_text : string; seg_repeat : Z;
    seg_quiz : option (list Question) }.

(** The listening block in either of its shapes. [segments] and [L_quiz]
    are [Some] exactly when the field is an array ([Array.isArray]);
    [L_text] is [None] when the block has no [text]. *)
Record Listening :=
  { segments : option (list Segment);
    L_text : option string;
    L_quiz : option (list Question) }.

Record Grammar :=
  { g_title : string; rules : list string; examples : list string;
    g_quiz : list Question }.

(** [mustIncludeAny] and [mustIncludeAllPatterns] may be absent: the code
    reads them through [|| []]. *)
Record OutputRules :=
  { mustIncludeAny : option (list string);
    mustIncludeAllPatterns : option (list string);
    minSentences : Z;
    mustUseVocabAtLeast : Z }.

Record PassRules :=
  { minOutputChars : Z;
    vocabMinCorrect : Q;
    grammarMinCorrect : Q;
    listeningMinCorrect : Q }.

Record DayPlan :=
  { day : Z;
    topic : string;
    vocab_list : list VocabEntry;
    vocab_quiz : list VocabQuestion;
    grammar : Grammar;
    listening : option Listening;
    output_prompt : string;
    outputRules : OutputRules;
    passRules : PassRules }.

(** ** Text helpers of the output evaluator *)

Definition countSentences (text : string) : Z :=
  let parts :=
    filter (fun s => Is_true (Js.truthy s))
           (map Js.trim (Js.split_terminators text)) in
  Z.of_nat (length parts).

Definition normalize (text : string) : string := Js.toLowerCase text.

Definition includesAny (haystack : string) (words : list string) : bool :=
  let t := normalize haystack in
  existsb (fun w => Js.includes t (Js.toLowerCase w)) words.

Definition countVocabUsed (text : string) (vocabList : list string) : Z :=
  let t := normalize text in
  fold_left
    (fun count w => if Js.includes t (Js.toLowerCase w) then count + 1 else count)
    vocabList 0.

(** The report [evaluateOutput] stores in [outputReport]. *)
Record Report :=
  { charCount : Z;
    minChars : Z;
    charsOk : bool;
    sentences : Z;
    r_minSentences : Z;
    sentencesOk : bool;
    r_mustIncludeAny : list string;
    keywordOk : bool;
    r_mustIncludeAllPatterns : list string;
    patternChecks : list bool;
    patternsOk : bool;
    vocabUsedCount : Z;
    r_mustUseVocabAtLeast : Z;
    vocabOk : bool }.

Section Evaluator.

(** [new RegExp(p, "i").test(text)] is the host's: the patterns of a day
    plan are taken to be well-formed regular expressions, on which the
    test is a total predicate. *)
Variable regexTest : string -> string -> bool.

Definition testRegexAll (text : string) (patterns : list string) : list bool :=
  map (fun p => regexTest p text) patterns.

(** [evaluateOutput]: the report it stores and the verdict it returns. *)
Definition evaluateOutput (dayPlan : DayPlan) (outputText : string)
  : Report * bool :=
  let rules := outputRules dayPlan in
  let t := outputText in
  let charCount' := Z.of_nat (String.length (Js.trim t)) in
  let sentences' := countSentences t in
  let hasAnyKeywords := includesAny t (default [] (mustIncludeAny rules)) in
  let patternChecks' :=
    testRegexAll t (default [] (mustIncludeAllPatterns rules)) in
  let patternsOk' := forallb id patternChecks' in
  let todaysVocabList := map de (vocab_list dayPlan) in
  let vocabUsedCount' := countVocabUsed t todaysVocabList in
  let report :=
    {| charCount := charCount';
       minChars := minOutputChars (passRules dayPlan);
       charsOk := (minOutputChars (passRules dayPlan) <=? charCount')%Z;
       sentences := sentences';
       r_minSentences := minSentences rules;
       sentencesOk := (minSentences rules <=? sentences')%Z;
       r_mustIncludeAny := default [] (mustIncludeAny rules);
       keywordOk :=
         if (length (default [] (mustIncludeAny rules)) =? 0)%nat
         then true else hasAnyKeywords;
       r_mustIncludeAllPatterns := default [] (mustIncludeAllPatterns rules);
       patternChecks := patternChecks';
       patternsOk := patternsOk';
       vocabUsedCount := vocabUsedCount';
       r_mustUseVocabAtLeast := mustUseVocabAtLeast rules;
       vocabOk := (mustUseVocabAtLeast rules <=? vocabUsedCount')%Z |} in
  (report,
   charsOk report && sentencesOk report && keywordOk report
   && patternsOk report && vocabOk report).

End Evaluator.

(** ** Listening helpers: either [segments] or the legacy [text] + [quiz] *)

Definition legacySegment (L : Listening) (t : string) : Segment :=
  {| seg_id := 1;
     seg_title := "Listening";
     seg_text := t;
     seg_repeat := 1;
     seg_quiz := Some (default [] (L_quiz L)) |}.

(** [dayPlan] is [None] for [undefined], which [dayPlan?.listening]
    tolerates. *)
Definition getListeningSegments (dayPlan : option DayPlan) : list Segment :=
  match dayPlan ≫= listening with
  | None => []
  | Some L =>
      let nonEmptyArray :=
        match segments L with
        | Some segs => negb (length segs =? 0)%nat
        | None => false
        end in
      if nonEmptyArray then default [] (segments L)
      else
        (* legacy fallback *)
        match L_text L with
        | Some t => if Js.truthy t then [legacySegment L t] else []
        | None => []
        end
  end.

(** [xs.forEach((x, i) => ...)] where the callback updates an accumulator. *)
Fixpoint forEach_from {A B : Type} (f : A -> nat -> B -> B)
    (i : nat) (xs : list A) (out : B) : B :=
  match xs with
  | [] => out
  | x :: xs' => forEach_from f (S i) xs' (f x i out)
  end.

Definition forEach {A B : Type} (f : A -> nat -> B -> B) (xs : list A) (out : B) : B :=
  forEach_from f 0%nat xs out.

Record FlatQuestion :=
  { segIndex : nat; qIndex : nat; fq : Question; key : string }.

(** The template literal [`${segIndex}-${qIndex}`]. *)
Definition listeningKey (segIndex qIndex : nat) : string :=
  Js.numeral segIndex ++ "-" ++ Js.numeral qIndex.

Definition flatQuestion (segIndex qIndex : nat) (q : Question) : FlatQuestion :=
  {| segIndex := segIndex; qIndex := qIndex; fq := q;
     key := listeningKey segIndex qIndex |}.

(** [seg.quiz || []] *)
Definition quizOf (seg : Segment) : list Question := default [] (seg_quiz seg).

Definition flattenListeningQuiz (dayPlan : option DayPlan) : list FlatQuestion :=
  let segs := getListeningSegments dayPlan in
  forEach
    (fun seg segIndex out =>
       forEach (fun q qIndex out => (out ++ [flatQuestion segIndex qIndex q])%list)
               (quizOf seg) out)
    segs [].

(** The reading order of the flattened questions: by segment, then by
    question within the segment. *)
Definition earlier (x y : FlatQuestion) : Prop :=
  (segIndex x < segIndex y)%nat
  \/ (segIndex x = segIndex y /\ (qIndex x < qIndex y)%nat).

(** ** The progress store *)

(** The record behind [useState(loadProgress())]. The store keeps whatever
    JSON it finds, so the record is typed twice: at JSON values where it is
    read from storage, and at a day number and a mode name in the running
    component. *)
Record ProgressOf (N M : Type) :=
  mkProgress { currentDay : N; maxUnlockedDay : N; mode : M }.
Arguments mkProgress {N M}.
Arguments currentDay {N M}.
Arguments maxUnlockedDay {N M}.
Arguments mode {N M}.

Abbreviation Progress := (ProgressOf Z string).

Definition safeDay (p : Progress) : Z := Z.min (currentDay p) (maxUnlockedDay p).

(** [setMode]: [{ ...p, mode: newMode }]. *)
Definition setMode (newMode : string) (p : Progress) : Progress :=
  mkProgress (currentDay p) (maxUnlockedDay p) newMode.

(** The updater of [goToDay]: [{ ...p, currentDay: day, mode: "learn" }]. *)
Definition goToDay_update (day : Z) (p : Progress) : Progress :=
  mkProgress day (maxUnlockedDay p) "learn".

(** [goToDay]: both guards read the progress of the render, and the updater
    runs on the same progress, a click being handled before the next one. *)
Definition goToDay (day : Z) (progress : Progress) : Progress :=
  if (day <? 1)%Z then progress
  else if (day >? maxUnlockedDay progress)%Z then progress
  else goToDay_update day progress.

(** The updater of [checkPassAndUnlock]. *)
Definition unlock_update (nextDay : Z) (p : Progress) : Progress :=
  mkProgress nextDay (Z.max (maxUnlockedDay p) nextDay) "learn".

Definition defaultProgress : Progress := mkProgress 1 1 "learn".

(** ** The quiz state of one day *)

Record Result :=
  { vocabScore : Q; grammarScore : Q; listeningScore : Q;
    outputOk : bool; passed : bool }.

Record Session :=
  { vocabCorrect : Z;
    vocabChosen : gmap nat string;
    grammarCorrect : Z;
    grammarChosen : gmap nat string;
    listeningCorrect : Z;
    listeningChosen : gmap string string;
    outputText : string;
    outputReport : option Report;
    result : option Result }.

(** The state every day starts from, and the effect on [safeDay] restores. *)
Definition freshSession : Session :=
  {| vocabCorrect := 0; vocabChosen := ∅;
     grammarCorrect := 0; grammarChosen := ∅;
     listeningCorrect := 0; listeningChosen := ∅;
     outputText := ""; outputReport := None; result := None |}.

Definition withVocab (chosen : gmap nat string) (correct : Z) (s : Session) : Session :=
  {| vocabCorrect := correct; vocabChosen := chosen;
     grammarCorrect := grammarCorrect s; grammarChosen := grammarChosen s;
     listeningCorrect := listeningCorrect s; listeningChosen := listeningChosen s;
     outputText := outputText s; outputReport := outputReport s;
     result := result s |}.

Definition withGrammar (chosen : gmap nat string) (correct : Z) (s : Session) : Session :=
  {| vocabCorrect := vocabCorrect s; vocabChosen := vocabChosen s;
     grammarCorrect := correct; grammarChosen := chosen;
     listeningCorrect := listeningCorrect s; listeningChosen := listeningChosen s;
     outputText := outputText s; outputReport := outputReport s;
     result := result s |}.

Definition withListening (chosen : gmap string string) (correct : Z) (s : Session) : Session :=
  {| vocabCorrect := vocabCorrect s; vocabChosen := vocabChosen s;
     grammarCorrect := grammarCorrect s; grammarChosen := grammarChosen s;
     listeningCorrect := correct; listeningChosen := chosen;
     outputText := outputText s; outputReport := outputReport s;
     result := result s |}.

Definition withOutput (t : string) (rep : option Report) (res : option Result)
    (s : Session) : Session :=
  {| vocabCorrect := vocabCorrect s; vocabChosen := vocabChosen s;
     grammarCorrect := grammarCorrect s; grammarChosen := grammarChosen s;
     listeningCorrect := listeningCorrect s; listeningChosen := listeningChosen s;
     outputText := t; outputReport := rep; result := res |}.

(** *** The [onClick] handlers of the choice buttons *)

(** [setVocabChosen((prev) => ({ ...prev, [i]: c }));
     if (c === q.answer) setVocabCorrect((v) => v + 1);] *)
Definition vocabOnClick (i : nat) (q : VocabQuestion) (c : string) (s : Session)
    : Session :=
  withVocab (<[i := c]> (vocabChosen s))
            (if String.eqb c (answer q) then vocabCorrect s + 1 else vocabCorrect s)
            s.

Definition grammarOnClick (i : nat) (q : Question) (c : string) (s : Session)
    : Session :=
  withGrammar (<[i := c]> (grammarChosen s))
              (if String.eqb c (q_a q) then grammarCorrect s + 1 else grammarCorrect s)
              s.

Definition listeningOnClick (item : FlatQuestion) (c : string) (s : Session)
    : Session :=
  withListening (<[key item := c]> (listeningChosen s))
                (if String.eqb c (q_a (fq item)) then listeningCorrect s + 1
                 else listeningCorrect s)
                s.

(** *** The buttons: [disabled={locked}], [locked = chosen !== undefined] *)

Definition locked {K : Type} `{Countable K} (chosen : gmap K string) (k : K) : bool :=
  match chosen !! k with Some _ => true | None => false end.

(** A click on a choice button reaches its handler unless the button is
    disabled. *)
Definition clickVocabChoice (i : nat) (q : VocabQuestion) (c : string)
    (s : Session) : Session :=
  if locked (vocabChosen s) i then s else vocabOnClick i q c s.

Definition clickGrammarChoice (i : nat) (q : Question) (c : string)
    (s : Session) : Session :=
  if locked (grammarChosen s) i then s else grammarOnClick i q c s.

Definition clickListeningChoice (item : FlatQuestion) (c : string)
    (s : Session) : Session :=
  if locked (listeningChosen s) (key item) then s else listeningOnClick item c s.

(** *** Scores *)

(** [total ? correct / total : 1] *)
Definition ratioOrOne (correct : Z) (total : nat) : Q :=
  if (total =? 0)%nat then 1%Q
  else (inject_Z correct / inject_Z (Z.of_nat total))%Q.

Definition vocabScoreOf (dayPlan : DayPlan) (s : Session) : Q :=
  ratioOrOne (vocabCorrect s) (length (vocab_quiz dayPlan)).

Definition grammarScoreOf (dayPlan : DayPlan) (s : Session) : Q :=
  ratioOrOne (grammarCorrect s) (length (g_quiz (grammar dayPlan))).

Definition listeningScoreOf (dayPlan : DayPlan) (s : Session) : Q :=
  ratioOrOne (listeningCorrect s) (length (flattenListeningQuiz (Some dayPlan))).

(** ** The component: day lookup, the day gate and the events of the page *)

Record App := { app_progress : Progress; app_session : Session }.

Definition withSession (s : Session) (st : App) : App :=
  {| app_progress := app_progress st; app_session := s |}.

Definition withProgress (p : Progress) (st : App) : App :=
  {| app_progress := p; app_session := app_session st |}.

(** What the learner can do on the page. A choice button is named by the
    position of its question in the rendered list and by its label. *)
Inductive Event :=
| SetMode (newMode : string)
| GoToDay (day : Z)
| ClickVocab (i : nat) (c : string)
| ClickGrammar (i : nat) (c : string)
| ClickListening (idx : nat) (c : string)
| TypeOutput (t : string)
| CheckWritingRules
| CheckAndUnlock
| Reset.

Section Component.

Variable regexTest : string -> string -> bool.

(** The content of [./data/dayPlans.json]. *)
Variable dayPlans : list DayPlan.

(** [dayPlans.find((d) => d.day === safeDay)] *)
Definition dayPlanOf (p : Progress) : option DayPlan :=
  List.find (fun d => (day d =? safeDay p)%Z) dayPlans.

(** The button "Check writing rules": [evaluateOutput] for its report. *)
Definition checkWritingRules (dayPlan : DayPlan) (st : App) : App :=
  let s := app_session st in
  let '(report, _) := evaluateOutput regexTest dayPlan (outputText s) in
  withSession (withOutput (outputText s) (Some report) (result s) s) st.

(** The verdict of [checkPassAndUnlock]: the object it hands to
    [setResult]. *)
Definition verdict (dayPlan : DayPlan) (s : Session) : Result :=
  let vocabScore' := vocabScoreOf dayPlan s in
  let grammarScore' := grammarScoreOf dayPlan s in
  let listeningScore' := listeningScoreOf dayPlan s in
  let outputOk' := snd (evaluateOutput regexTest dayPlan (outputText s)) in
  let passed' :=
    Qle_bool (vocabMinCorrect (passRules dayPlan)) vocabScore'
    && Qle_bool (grammarMinCorrect (passRules dayPlan)) grammarScore'
    && Qle_bool (listeningMinCorrect (passRules dayPlan)) listeningScore'
    && outputOk' in
  {| vocabScore := vocabScore'; grammarScore := grammarScore';
     listeningScore := listeningScore'; outputOk := outputOk';
     passed := passed' |}.

(** [checkPassAndUnlock], closed over the render whose state is [st] and
    whose day plan is [dayPlan]. *)
Definition checkPassAndUnlock (dayPlan : DayPlan) (st : App) : App :=
  let s := app_session st in
  let report := fst (evaluateOutput regexTest dayPlan (outputText s)) in
  let res := verdict dayPlan s in
  let st1 := withSession (withOutput (outputText s) (Some report) (Some res) s) st in
  if passed res then
    let nextDay := safeDay (app_progress st) + 1 in
    withProgress (unlock_update nextDay (app_progress st1)) st1
  else st1.

(** The handler an event reaches in a render that found its day plan. *)
Definition handle (dayPlan : DayPlan) (e : Event) (st : App) : App :=
  let s := app_session st in
  match e with
  | SetMode m => withProgress (setMode m (app_progress st)) st
  | GoToDay d => withProgress (goToDay d (app_progress st)) st
  | ClickVocab i c =>
      match vocab_quiz dayPlan !! i with
      | Some q => withSession (clickVocabChoice i q c s) st
      | None => st
      end
  | ClickGrammar i c =>
      match g_quiz (grammar dayPlan) !! i with
      | Some q => withSession (clickGrammarChoice i q c s) st
      | None => st
      end
  | ClickListening idx c =>
      match flattenListeningQuiz (Some dayPlan) !! idx with
      | Some item => withSession (clickListeningChoice item c s) st
      | None => st
      end
  | TypeOutput t =>
      withSession (withOutput t (outputReport s) (result s) s) st
  | CheckWritingRules => checkWritingRules dayPlan st
  | CheckAndUnlock => checkPassAndUnlock dayPlan st
  | Reset => withProgress defaultProgress st
  end.

(** The effect keyed on [safeDay]: a render with another day starts from
    the fresh session. *)
Definition dayChangeEffect (before after : App) : App :=
  if (safeDay (app_progress before) =? safeDay (app_progress after))%Z
  then after else withSession freshSession after.

(** One event. A render that finds no plan for its day shows the
    "Completed" page, whose only control is the reset. *)
Definition step (st : App) (e : Event) : App :=
  let st' :=
    match dayPlanOf (app_progress st) with
    | Some dayPlan => handle dayPlan e st
    | None =>
        match e with
        | Reset => withProgress defaultProgress st
        | _ => st
        end
    end in
  dayChangeEffect st st'.

Definition run (st : App) (events : list Event) : App :=
  fold_left step events st.

End Component.

Definition isReset (e : Event) : bool :=
  match e with Reset => true | _ => false end.

(** ** Loading the progress from [localStorage] *)

Module Store.

(** A parsed JSON text. An object lists its members in the order of the
    text. *)
#[warnings="-register-all"]
Inductive Json :=
| JNull
| JBool (b : bool)
| JNum (n : Q)
| JStr (s : string)
| JArr (items : list Json)
| JObj (members : list (string * Json)).

Inductive JsError := SecurityError | SyntaxError | TypeError.

(** The completion of a statement that may throw. *)
Inductive Outcome (A : Type) :=
| Return (v : A)
| Throw (e : JsError).
Arguments Return {A}.
Arguments Throw {A}.

Definition bind {A B : Type} (m : Outcome A) (k : A -> Outcome B) : Outcome B :=
  match m with
  | Return v => k v
  | Throw e => Throw e
  end.

#[export] Instance outcome_bind : MBind Outcome :=
  fun A B k m => bind m k.

(** [try { body } catch { handler }] *)
Definition tryCatch {A : Type} (body : Outcome A) (handler : Outcome A) : Outcome A :=
  match body with
  | Return v => Return v
  | Throw _ => handler
  end.

(** The browser's storage: reading throws where the page is denied
    access. *)
Record LocalStorage := { accessible : bool; items : gmap string string }.

Definition getItem (k : string) (ls : LocalStorage) : Outcome (option string) :=
  if accessible ls then Return (items ls !! k) else Throw SecurityError.

Definition STORAGE_KEY : string := "a2_progress_v10".

(** The last member named [k], as [JSON.parse] keeps the last of
    duplicate names. *)
Fixpoint member (k : string) (members : list (string * Json)) : option Json :=
  match members with
  | [] => None
  | (k', v) :: rest =>
      match member k rest with
      | Some v' => Some v'
      | None => if String.eqb k' k then Some v else None
      end
  end.

(** [parsed.k] for the three names read below, none of which is a
    property of a number, a string, a boolean or an array: [None] is
    [undefined], and reading a property of [null] throws. *)
Definition getProp (parsed : Json) (k : string) : Outcome (option Json) :=
  match parsed with
  | JNull => Throw TypeError
  | JObj members => Return (member k members)
  | _ => Return None
  end.

(** [v ?? d] *)
Definition nullish (v : option Json) (d : Json) : Json :=
  match v with
  | None | Some JNull => d
  | Some x => x
  end.

Definition defaults : ProgressOf Json Json :=
  mkProgress (JNum 1) (JNum 1) (JStr "learn").

Section Load.

(** [JSON.parse] is the host's: it returns the value of a JSON text and
    throws a [SyntaxError] on any other string. *)
Variable JSON_parse : string -> Outcome Json.

Definition loadProgress (ls : LocalStorage) : Outcome (ProgressOf Json Json) :=
  tryCatch
    (saved ← getItem STORAGE_KEY ls;
     match saved with
     | None | Some EmptyString => Return defaults
     | Some text =>
         parsed ← JSON_parse text;
         cd ← getProp parsed "currentDay";
         mud ← getProp parsed "maxUnlockedDay";
         md ← getProp parsed "mode";
         Return (mkProgress (nullish cd (JNum 1)) (nullish mud (JNum 1))
                            (nullish md (JStr "learn")))
     end)
    (Return defaults).

End Load.

End Store.

(** ** The speech queue *)

Module Speech.

(** An utterance handed to the engine: its text, and the token its [onend]
    and [onerror] handlers closed over ([myToken]). *)
Record Utterance := { u_text : string; u_token : Z }.

(** The refs and the state of the controller, and [engine], the utterances
    of the queue passed to [speechSynthesis.speak] so far, oldest first. *)
Record Tts :=
  { ttsSupported : bool;
    isSpeaking : bool;
    utterQueue : list string;
    currentUtter : option Utterance;
    stopToken : Z;
    engine : list Utterance }.

Definition initial (supported : bool) : Tts :=
  {| ttsSupported := supported; isSpeaking := false; utterQueue := [];
     currentUtter := None; stopToken := 0; engine := [] |}.

Definition setIsSpeaking (b : bool) (st : Tts) : Tts :=
  {| ttsSupported := ttsSupported st; isSpeaking := b;
     utterQueue := utterQueue st; currentUtter := currentUtter st;
     stopToken := stopToken st; engine := engine st |}.

Definition setUtterQueue (queue : list string) (st : Tts) : Tts :=
  {| ttsSupported := ttsSupported st; isSpeaking := isSpeaking st;
     utterQueue := queue; currentUtter := currentUtter st;
     stopToken := stopToken st; engine := engine st |}.

Definition setCurrentUtter (u : option Utterance) (st : Tts) : Tts :=
  {| ttsSupported := ttsSupported st; isSpeaking := isSpeaking st;
     utterQueue := utterQueue st; currentUtter := u;
     stopToken := stopToken st; engine := engine st |}.

Definition bumpStopToken (st : Tts) : Tts :=
  {| ttsSupported := ttsSupported st; isSpeaking := isSpeaking st;
     utterQueue := utterQueue st; currentUtter := currentUtter st;
     stopToken := stopToken st + 1; engine := engine st |}.

Definition handToEngine (u : Utterance) (st : Tts) : Tts :=
  {| ttsSupported := ttsSupported st; isSpeaking := isSpeaking st;
     utterQueue := utterQueue st; currentUtter := currentUtter st;
     stopToken := stopToken st; engine := engine st ++ [u] |}.

(** [stopSpeaking]. [iosHardStop] and the bare [cancel] act on the engine
    alone and swallow what it throws, so both branches leave the
    controller in the same state. *)
Definition stopSpeaking (st : Tts) : Tts :=
  setCurrentUtter None (setUtterQueue [] (setIsSpeaking false (bumpStopToken st))).

(** [String(t || "").trim().length > 0] *)
Definition nonBlank (t : string) : bool :=
  (0 <? String.length (Js.trim t))%nat.

Section Engine.

(** Whether [speechSynthesis.speak(u)] throws. *)
Variable speakThrows : Utterance -> bool.

(** [speakNext] of the call whose token is [myToken]; [queue] is
    [utterQueueRef.current], which [shift] consumes, and the call in the
    [catch] clause is the recursive one. *)
Fixpoint speakNext_from (queue : list string) (myToken : Z) (st : Tts) : Tts :=
  if negb (stopToken st =? myToken)%Z then
    (* Stop pressed? exit immediately *)
    setCurrentUtter None (setIsSpeaking false st)
  else
    match queue with
    | [] => setCurrentUtter None (setIsSpeaking false st)
    | next :: rest =>
        let st := setUtterQueue rest st in
        if negb (Js.truthy next) then
          setCurrentUtter None (setIsSpeaking false st)
        else
          let u := {| u_text := next; u_token := myToken |} in
          let st := setCurrentUtter (Some u) st in
          if speakThrows u then speakNext_from rest myToken st
          else handToEngine u st
    end.

Definition speakNext (myToken : Z) (st : Tts) : Tts :=
  speakNext_from (utterQueue st) myToken st.

Definition speakTextsAsQueue (texts : list string) (st : Tts) : Tts :=
  if negb (ttsSupported st) then st
  else
    (* stop any current speech and invalidate older queue loops *)
    let st := stopSpeaking st in
    let queue := List.filter nonBlank texts in
    if (length queue =? 0)%nat then st
    else
      let st := setUtterQueue queue st in
      let myToken := stopToken st in
      speakNext myToken st.

(** The handlers [speakNext] installs on the utterance [u]. *)
Definition onstart (u : Utterance) (st : Tts) : Tts := setIsSpeaking true st.

Definition onend (u : Utterance) (st : Tts) : Tts :=
  if negb (stopToken st =? u_token u)%Z then st
  else speakNext (u_token u) st.

Definition onerror (u : Utterance) (st : Tts) : Tts :=
  if negb (stopToken st =? u_token u)%Z then st
  else speakNext (u_token u) st.

(** The part of the effect on [safeDay] that concerns speech, where the
    engine exists. *)
Definition dayChanged (st : Tts) : Tts :=
  let st := if ttsSupported st then bumpStopToken st else st in
  setCurrentUtter None (setUtterQueue [] (setIsSpeaking false st)).

(** What happens to the controller: the learner plays or stops, and the
    engine fires a handler of an utterance whenever it likes. *)
Inductive Action :=
| Play (texts : list string)
| Stop
| Started (u : Utterance)
| Ended (u : Utterance)
| Failed (u : Utterance).

Definition act (st : Tts) (x : Action) : Tts :=
  match x with
  | Play texts => speakTextsAsQueue texts st
  | Stop => stopSpeaking st
  | Started u => onstart u st
  | Ended u => onend u st
  | Failed u => onerror u st
  end.

Definition perform (st : Tts) (xs : list Action) : Tts := fold_left act xs st.

(** The controller state proper: the pending queue, the speaking flag and
    the current utterance. *)
Definition controller (st : Tts) : list string * bool * option Utterance :=
  (utterQueue st, isSpeaking st, currentUtter st).

End Engine.

End Speech.

(** ** What it is for a persisted value to be absent or malformed *)

Module StoreSpec.
Import Store.

Definition isObject (v : Json) : bool :=
  match v with JObj _ => true | _ => false end.

(** The persisted value is absent or is not the JSON text of an object:
    storage cannot be read, holds nothing or the empty string under the
    key, or holds a string that [JSON.parse] rejects or reads as [null], a
    number, a string, a boolean or an array. *)
Inductive AbsentOrNotAnObject (JSON_parse : string -> Outcome Json)
    (ls : LocalStorage) : Prop :=
| storage_denied : accessible ls = false -> AbsentOrNotAnObject JSON_parse ls
| item_absent : items ls !! STORAGE_KEY = None -> AbsentOrNotAnObject JSON_parse ls
| item_empty :
    items ls !! STORAGE_KEY = Some EmptyString -> AbsentOrNotAnObject JSON_parse ls
| item_unparsable text e :
    items ls !! STORAGE_KEY = Some text -> JSON_parse text = Throw e ->
    AbsentOrNotAnObject JSON_parse ls
| item_not_object text v :
    items ls !! STORAGE_KEY = Some text -> JSON_parse text = Return v ->
    isObject v = false ->
    AbsentOrNotAnObject JSON_parse ls.

(** A day of the data model: a number that is at least 1. *)
Definition validDay (v : option Json) : bool :=
  match v with
  | Some (JNum n) => Qle_bool 1 n
  | _ => false
  end.

(** A mode of the data model: "learn" or "quiz". *)
Definition validMode (v : option Json) : bool :=
  match v with
  | Some (JStr m) => String.eqb m "learn" || String.eqb m "quiz"
  | _ => false
  end.

(** A well-formed persisted progress, by the data model: an object whose
    [currentDay] and [maxUnlockedDay] are days and whose [mode] is a
    mode. *)
Definition validProgress (v : Json) : bool :=
  match v with
  | JObj members =>
      validDay (member "currentDay" members)
      && validDay (member "maxUnlockedDay" members)
      && validMode (member "mode" members)
  | _ => false
  end.

(** The persisted value is absent, malformed or corrupt: it is absent or
    not the text of an object, or it is the text of a value that is not a
    well-formed progress. *)
Inductive AbsentOrCorrupt (JSON_parse : string -> Outcome Json)
    (ls : LocalStorage) : Prop :=
| not_an_object : AbsentOrNotAnObject JSON_parse ls -> AbsentOrCorrupt JSON_parse ls
| item_corrupt text v :
    accessible ls = true ->
    items ls !! STORAGE_KEY = Some text -> JSON_parse text = Return v ->
    validProgress v = false ->
    AbsentOrCorrupt JSON_parse ls.

(** The quotation mark of a JSON text. *)
Definition dq : string := String (ascii_of_nat 34) EmptyString.

(** The JSON text of an object with corrupt members: a day that is a
    string, a day below 1 and a mode that is a number. *)
Definition corruptText : string :=
  "{" ++ dq ++ "currentDay" ++ dq ++ ":" ++ dq ++ "abc" ++ dq ++ ","
  ++ dq ++ "maxUnlockedDay" ++ dq ++ ":-3,"
  ++ dq ++ "mode" ++ dq ++ ":42}".

Definition corruptObject : Json :=
  JObj [("currentDay", JStr "abc"); ("maxUnlockedDay", JNum (-3 # 1));
        ("mode", JNum 42)].

(** The JSON text of an object with one member only. *)
Definition partialText : string :=
  "{" ++ dq ++ "currentDay" ++ dq ++ ":3}".

Definition partialObject : Json := JObj [("currentDay", JNum 3)].

(** A parser for runs on these two texts; it rejects every other
    string. *)
Definition objectParse (text : string) : Outcome Json :=
  if String.eqb text corruptText then Return corruptObject
  else if String.eqb text partialText then Return partialObject
  else Throw SyntaxError.

(** A parser for runs: it knows three JSON texts and rejects every other
    string. *)
Definition toyParse (text : string) : Outcome Json :=
  if String.eqb text "null" then Return JNull
  else if String.eqb text "7" then Return (JNum 7)
  else if String.eqb text "{}" then Return (JObj [])
  else Throw SyntaxError.

Definition storing (text : string) : LocalStorage :=
  {| accessible := true; items := {[ STORAGE_KEY := text ]} |}.

End StoreSpec.

(** ** Sample content used to run the definitions *)

Module Sample.

(** U+00DF, the sharp s. *)
Definition eszett : string := String (ascii_of_nat 223) EmptyString.

Definition text : string :=
  "Ich gehe heute in die Schule. Das macht Spa" ++ eszett ++ ".".

Definition outRules : OutputRules :=
  {| mustIncludeAny := Some ["schule"];
     mustIncludeAllPatterns := Some [];
     minSentences := 2;
     mustUseVocabAtLeast := 1 |}.

Definition thresholds : PassRules :=
  {| minOutputChars := 10;
     vocabMinCorrect := 8 # 10;
     grammarMinCorrect := 8 # 10;
     listeningMinCorrect := 8 # 10 |}.

Definition vq1 : VocabQuestion :=
  {| word := "die Schule"; vq_choices := ["school"; "street"]; answer := "school" |}.
Definition vq2 : VocabQuestion :=
  {| word := "heute"; vq_choices := ["today"; "tomorrow"]; answer := "today" |}.

Definition gq1 : Question :=
  {| q_q := "Ich ___ in die Schule."; choices := ["gehe"; "gehst"]; q_a := "gehe" |}.

Definition lq1 : Question :=
  {| q_q := "Wohin geht Anna?"; choices := ["Schule"; "Kino"]; q_a := "Schule" |}.
Definition lq2 : Question :=
  {| q_q := "Wann?"; choices := ["heute"; "morgen"]; q_a := "heute" |}.

Definition seg (n : Z) (qs : option (list Question)) : Segment :=
  {| seg_id := n; seg_title := "Teil"; seg_text := "Anna geht heute in die Schule.";
     seg_repeat := 2; seg_quiz := qs |}.

Definition plan (d : Z) (L : option Listening) : DayPlan :=
  {| day := d;
     topic := "Schule";
     vocab_list := [ {| de := "Schule"; en := "school" |} ];
     vocab_quiz := [vq1; vq2];
     grammar := {| g_title := "Verben"; rules := []; examples := []; g_quiz := [gq1] |};
     listening := L;
     output_prompt := "Schreibe zwei Saetze.";
     outputRules := outRules;
     passRules := thresholds |}.

Definition segmented : Listening :=
  {| segments := Some [seg 1 (Some [lq1]); seg 2 None; seg 3 (Some [lq2; lq1])];
     L_text := None; L_quiz := None |}.

Definition legacy : Listening :=
  {| segments := Some []; L_text := Some "Anna geht in die Schule.";
     L_quiz := None |}.

Definition day1 : DayPlan := plan 1 (Some segmented).
Definition day2 : DayPlan := plan 2 (Some legacy).

Definition noRegex : string -> string -> bool := fun _ _ => false.

End Sample.

Module SampleRun.

(** Day 1 with every question answered correctly and the text of scenario
    A written. *)
Definition answers : list Event :=
  [ SetMode "quiz";
    ClickVocab 0 "school"; ClickVocab 1 "today";
    ClickGrammar 0 "gehe";
    ClickListening 0 "Schule"; ClickListening 1 "heute"; ClickListening 2 "Schule";
    TypeOutput Sample.text ].

Definition start : App :=
  {| app_progress := defaultProgress; app_session := freshSession |}.

Definition ready : App :=
  run Sample.noRegex [Sample.day1; Sample.day2] start answers.

Definition unready : App :=
  run Sample.noRegex [Sample.day1; Sample.day2] start [SetMode "quiz"].

End SampleRun.

(** ** The transcript *)

(** [xs.join(sep)] *)
Fixpoint join (sep : string) (xs : list string) : string :=
  match xs with
  | [] => EmptyString
  | [x] => x
  | x :: xs' => x ++ sep ++ join sep xs'
  end.

(** The line feed of the template literals. *)
Definition LF : string := String (ascii_of_nat 10) EmptyString.

(** [segs.map((s) => `# ${s.title}\n${s.text}`).join("\n\n")] *)
Definition buildTranscript (dayPlan : option DayPlan) : string :=
  let segs := getListeningSegments dayPlan in
  join (LF ++ LF) (map (fun s => "# " ++ seg_title s ++ LF ++ seg_text s) segs).

(** [Object.keys(listeningChosen).length > 0] *)
Definition showTranscript (s : Session) : bool :=
  (0 <? size (listeningChosen s))%nat.

(** ** Narration of the listening segments *)

(** [Math.max(1, Number(seg.repeat || 1))] *)
Definition repeatOf (seg : Segment) : Z :=
  Z.max 1 (if (seg_repeat seg =? 0)%Z then 1 else seg_repeat seg).

(** [for (let r = 0; r < rep; r++) texts.push(text)] *)
Fixpoint pushTimes (rep : nat) (text : string) (texts : list string) : list string :=
  match rep with
  | O => texts
  | S rep' => pushTimes rep' text (texts ++ [text])%list
  end.

(** The texts [speakAllListening] collects. *)
Definition allListeningTexts (listeningSegments : list Segment) : list string :=
  forEach
    (fun seg _ texts => pushTimes (Z.to_nat (repeatOf seg)) (seg_text seg) texts)
    listeningSegments [].

Section Narration.

Variable speakThrows : Speech.Utterance -> bool.

Definition speakAllListening (listeningSegments : list Segment)
    (st : Speech.Tts) : Speech.Tts :=
  Speech.speakTextsAsQueue speakThrows (allListeningTexts listeningSegments) st.

Definition speakOneSegment (listeningSegments : list Segment) (segIndex : nat)
    (st : Speech.Tts) : Speech.Tts :=
  match listeningSegments !! segIndex with
  | None => st
  | Some seg =>
      Speech.speakTextsAsQueue speakThrows
        (pushTimes (Z.to_nat (repeatOf seg)) (seg_text seg) []) st
  end.

(** The engine reports the end of the utterance it was handed last. *)
Definition finishCurrent (st : Speech.Tts) : Speech.Tts :=
  match Speech.currentUtter st with
  | Some u => Speech.onend speakThrows u st
  | None => st
  end.

(** The utterances of a queue that the engine accepts. *)
Definition acceptedOf (token : Z) (queue : list string) : list Speech.Utterance :=
  List.filter (fun u => negb (speakThrows u))
    (map (fun t => {| Speech.u_text := t; Speech.u_token := token |}) queue).

End Narration.

(** An engine callback, as opposed to an action of the learner. *)
Definition isCallback (x : Speech.Action) : bool :=
  match x with
  | Speech.Started _ | Speech.Ended _ | Speech.Failed _ => true
  | _ => false
  end.

(** No utterance handed to the engine carries a token beyond the live
    one. *)
Definition tokensBounded (st : Speech.Tts) : Prop :=
  Forall (fun u => Speech.u_token u <= Speech.stopToken st) (Speech.engine st).

(** ** Saving the progress *)

Module Persist.
Import Store.

(** [localStorage.setItem(k, v)] *)
Definition setItem (k v : string) (ls : LocalStorage) : Outcome LocalStorage :=
  if accessible ls
  then Return {| accessible := true; items := <[k := v]> (items ls) |}
  else Throw SecurityError.

(** The object [JSON.stringify] is given. *)
Definition progressObject (p : ProgressOf Json Json) : Json :=
  JObj [("currentDay", currentDay p); ("maxUnlockedDay", maxUnlockedDay p);
        ("mode", mode p)].

(** The progress of the running component as the JSON values it holds. *)
Definition stored (p : Progress) : ProgressOf Json Json :=
  mkProgress (JNum (inject_Z (currentDay p))) (JNum (inject_Z (maxUnlockedDay p)))
             (JStr (mode p)).

Section Save.

(** [JSON.stringify] is the host's. *)
Variable JSON_stringify : Json -> string.

Definition saveProgress (p : ProgressOf Json Json) (ls : LocalStorage)
    : Outcome LocalStorage :=
  setItem STORAGE_KEY (JSON_stringify (progressObject p)) ls.

End Save.

End Persist.

(** ** Invariants of a session *)

(** The days of a progress are in order: the current day is at least 1 and
    within the unlocked bound. *)
Definition daysInOrder (p : Progress) : Prop :=
  1 <= currentDay p <= maxUnlockedDay p.

(** The answers of a session belong to the quizzes of [dayPlan], and no
    count exceeds the number of recorded answers. *)
Record answersWithin (dayPlan : DayPlan) (s : Session) : Prop :=
  { vocab_counted : 0 <= vocabCorrect s <= Z.of_nat (size (vocabChosen s));
    vocab_keys : forall i, is_Some (vocabChosen s !! i) ->
                           (i < length (vocab_quiz dayPlan))%nat;
    grammar_counted : 0 <= grammarCorrect s <= Z.of_nat (size (grammarChosen s));
    grammar_keys : forall i, is_Some (grammarChosen s !! i) ->
                             (i < length (g_quiz (grammar dayPlan)))%nat;
    listening_counted :
      0 <= listeningCorrect s <= Z.of_nat (size (listeningChosen s));
    listening_keys : forall k, is_Some (listeningChosen s !! k) ->
                               k ∈ map key (flattenListeningQuiz (Some dayPlan)) }.

(** Sample data for the runs below. *)
Module Sample2.

Definition toyStringify (v : Store.Json) : string := "{}".

Definition toyParse2 (text : string) : Store.Outcome Store.Json :=
  if String.eqb text "{}"
  then Store.Return (Persist.progressObject (Persist.stored (mkProgress 3 4 "quiz")))
  else Store.Throw Store.SyntaxError.

Definition emptyStorage : Store.LocalStorage :=
  {| Store.accessible := true; Store.items := ∅ |}.

Definition rejectB (u : Speech.Utterance) : bool :=
  String.eqb (Speech.u_text u) "b".

End Sample2.

(** The pieces of a split that survive [map(trim)] and [filter(Boolean)]. *)
Definition sentencePieces (pieces : list string) : nat :=
  length (filter (fun s => Is_true (Js.truthy s)) (map Js.trim pieces)).

Definition isCheckAndUnlock (e : Event) : bool :=
  match e with CheckAndUnlock => true | _ => false end.

(** The utterance an engine callback belongs to. *)
Definition callbackFor (x : Speech.Action) : option Speech.Utterance :=
  match x with
  | Speech.Started u | Speech.Ended u | Speech.Failed u => Some u
  | _ => None
  end.

(** * Properties *)


(** ** The output evaluator *)

Lemma countVocabUsed_fold (t : string) (ws : list string) (n : Z) :
  fold_left
    (fun count w => if Js.includes t (Js.toLowerCase w) then count + 1 else count)
    ws n
  = n + fold_left
      (fun count w => if Js.includes t (Js.toLowerCase w) then count + 1 else count)
      ws 0.
Proof.
  revert n. induction ws as [|w ws IH]; intros n; simpl.
  - lia.
  - destruct (Js.includes t (Js.toLowerCase w)).
    + rewrite (IH (n + 1)), (IH (0 + 1)). lia.
    + apply IH.
Qed.

Lemma countVocabUsed_app (text : string) (xs ys : list string) :
  countVocabUsed text (xs ++ ys) = countVocabUsed text xs + countVocabUsed text ys.
Proof.
  unfold countVocabUsed. rewrite fold_left_app.
  apply countVocabUsed_fold.
Qed.

Lemma countVocabUsed_unused (text : string) (ws : list string) :
  Forall (fun w => Js.includes (normalize text) (Js.toLowerCase w) = false) ws ->
  countVocabUsed text ws = 0.
Proof.
  unfold countVocabUsed. induction 1 as [|w ws Hw _ IH]; simpl; [reflexivity|].
  rewrite Hw. exact IH.
Qed.

(** C7 (scenario A). Under the rules "at least 10 characters, 2 sentences,
    any of the keywords [schule], no pattern, at least 1 vocabulary term",
    with a vocabulary list in which "Schule" is the term the text uses, the
    text "Ich gehe heute in die Schule. Das macht Spaß." gets a report
    with 2 sentences, the keyword check true and 1 vocabulary term used, and
    the verdict of [evaluateOutput] is [true]. *)
Theorem scenario_A_passes (regexTest : string -> string -> bool)
    (dayPlan : DayPlan) (before after : list VocabEntry) (gloss : string) :
  outputRules dayPlan = Sample.outRules ->
  minOutputChars (passRules dayPlan) = 10 ->
  vocab_list dayPlan = (before ++ {| de := "Schule"; en := gloss |} :: after)%list ->
  Forall (fun v => Js.includes (normalize Sample.text) (Js.toLowerCase (de v)) = false)
         (before ++ after)%list ->
  let '(report, ok) := evaluateOutput regexTest dayPlan Sample.text in
  sentences report = 2 /\ keywordOk report = true /\ vocabUsedCount report = 1
  /\ charsOk report = true /\ sentencesOk report = true
  /\ patternsOk report = true /\ vocabOk report = true
  /\ ok = true.
Proof.
  intros Hrules Hchars Hvocab Hunused.
  assert (Hcount : countVocabUsed Sample.text (map de (vocab_list dayPlan)) = 1).
  { rewrite Hvocab, map_app, countVocabUsed_app. cbn [map de].
    change ("Schule" :: map de after) with (["Schule"] ++ map de after)%list.
    rewrite countVocabUsed_app.
    apply Forall_app in Hunused as [Hb Ha].
    rewrite (countVocabUsed_unused _ (map de before)),
            (countVocabUsed_unused _ (map de after)).
    - reflexivity.
    - apply Forall_map. exact Ha.
    - apply Forall_map. exact Hb. }
  unfold evaluateOutput. rewrite Hrules, Hchars, Hcount.
  vm_compute. repeat split; reflexivity.
Qed.

Lemma scenario_A_passes_witness :
  let '(report, ok) := evaluateOutput Sample.noRegex Sample.day1 Sample.text in
  sentences report = 2 /\ keywordOk report = true /\ vocabUsedCount report = 1
  /\ charsOk report = true /\ sentencesOk report = true
  /\ patternsOk report = true /\ vocabOk report = true
  /\ ok = true.
Proof.
  apply (scenario_A_passes Sample.noRegex Sample.day1 [] [] "school").
  - reflexivity.
  - reflexivity.
  - reflexivity.
  - constructor.
Defined.

(** ** Scores *)

Lemma ratioOrOne_empty (correct : Z) : ratioOrOne correct 0 = 1%Q.
Proof. reflexivity. Qed.

Lemma ratioOrOne_quotient (correct : Z) (total : nat) :
  total <> 0%nat ->
  ratioOrOne correct total = (inject_Z correct / inject_Z (Z.of_nat total))%Q
  /\ (ratioOrOne correct total * inject_Z (Z.of_nat total) == inject_Z correct)%Q.
Proof.
  intros Hn. unfold ratioOrOne.
  destruct (Nat.eqb_spec total 0) as [->|_]; [congruence|].
  split; [reflexivity|].
  rewrite Qmult_comm. apply Qmult_div_r.
  unfold Qeq, inject_Z; simpl. lia.
Qed.

(** C6. Each of the three scores is the number of correct answers divided
    by the number of questions of its set, and is exactly 1 when the set has
    no question. *)
Theorem scores_are_ratios (dayPlan : DayPlan) (s : Session) :
  let flat := flattenListeningQuiz (Some dayPlan) in
  (vocab_quiz dayPlan = [] -> vocabScoreOf dayPlan s = 1%Q)
  /\ (g_quiz (grammar dayPlan) = [] -> grammarScoreOf dayPlan s = 1%Q)
  /\ (flat = [] -> listeningScoreOf dayPlan s = 1%Q)
  /\ (vocab_quiz dayPlan <> [] ->
      vocabScoreOf dayPlan s
      = (inject_Z (vocabCorrect s)
         / inject_Z (Z.of_nat (length (vocab_quiz dayPlan))))%Q)
  /\ (g_quiz (grammar dayPlan) <> [] ->
      grammarScoreOf dayPlan s
      = (inject_Z (grammarCorrect s)
         / inject_Z (Z.of_nat (length (g_quiz (grammar dayPlan)))))%Q)
  /\ (flat <> [] ->
      listeningScoreOf dayPlan s
      = (inject_Z (listeningCorrect s) / inject_Z (Z.of_nat (length flat)))%Q).
Proof.
  unfold vocabScoreOf, grammarScoreOf, listeningScoreOf.
  repeat split.
  - intros ->. apply ratioOrOne_empty.
  - intros ->. apply ratioOrOne_empty.
  - intros ->. apply ratioOrOne_empty.
  - intros H. apply ratioOrOne_quotient. destruct (vocab_quiz dayPlan); [congruence|discriminate].
  - intros H. apply ratioOrOne_quotient.
    destruct (g_quiz (grammar dayPlan)); [congruence|discriminate].
  - intros H. apply ratioOrOne_quotient.
    destruct (flattenListeningQuiz (Some dayPlan)); [congruence|discriminate].
Qed.

Lemma scores_are_ratios_witness :
  listeningScoreOf (Sample.plan 1 None) freshSession = 1%Q
  /\ vocabScoreOf Sample.day1 (vocabOnClick 0 Sample.vq1 "school" freshSession)
     = (inject_Z 1 / inject_Z 2)%Q.
Proof.
  split.
  - apply (scores_are_ratios (Sample.plan 1 None) freshSession). reflexivity.
  - apply (scores_are_ratios Sample.day1
             (vocabOnClick 0 Sample.vq1 "school" freshSession)).
    discriminate.
Defined.

(** ** Navigation *)

(** C8. [goToDay d] leaves the progress as it is when [d < 1] or
    [d > maxUnlockedDay]; otherwise it sets [currentDay] to [d] and [mode] to
    "learn" and keeps [maxUnlockedDay]. *)
Theorem goToDay_guarded (d : Z) (p : Progress) :
  ((d < 1 \/ d > maxUnlockedDay p) -> goToDay d p = p)
  /\ (1 <= d <= maxUnlockedDay p ->
      goToDay d p = mkProgress d (maxUnlockedDay p) "learn").
Proof.
  unfold goToDay, goToDay_update.
  destruct (Z.ltb_spec d 1) as [Hlt|Hge].
  - split; [reflexivity | lia].
  - destruct (Z.gtb_spec d (maxUnlockedDay p)) as [Hgt|Hle].
    + split; [reflexivity | lia].
    + split; [lia | reflexivity].
Qed.

Lemma goToDay_guarded_witness :
  goToDay 0 (mkProgress 2 3 "quiz") = mkProgress 2 3 "quiz"
  /\ goToDay 4 (mkProgress 2 3 "quiz") = mkProgress 2 3 "quiz"
  /\ goToDay 3 (mkProgress 2 3 "quiz") = mkProgress 3 3 "learn".
Proof.
  split; [|split].
  - apply (goToDay_guarded 0 (mkProgress 2 3 "quiz")). left. lia.
  - apply (goToDay_guarded 4 (mkProgress 2 3 "quiz")). right. simpl. lia.
  - apply (goToDay_guarded 3 (mkProgress 2 3 "quiz")). simpl. lia.
Defined.

(** ** The day gate *)

Lemma Qle_bool_true (x y : Q) : Qle_bool x y = true <-> (x <= y)%Q.
Proof. apply Qle_bool_iff. Qed.

(** C1. [checkPassAndUnlock] computes [passed] as the conjunction of the
    three score thresholds and the verdict on the written text; when it is
    true the progress becomes, in one update, [currentDay = activeDay + 1],
    [maxUnlockedDay = max(maxUnlockedDay, activeDay + 1)], [mode = "learn"];
    when it is false the progress is the one before. *)
Theorem checkPassAndUnlock_gate (regexTest : string -> string -> bool)
    (dayPlan : DayPlan) (st : App) :
  let s := app_session st in
  let p := app_progress st in
  let res := verdict regexTest dayPlan s in
  let st' := checkPassAndUnlock regexTest dayPlan st in
  (passed res = true <->
     (vocabMinCorrect (passRules dayPlan) <= vocabScoreOf dayPlan s)%Q
     /\ (grammarMinCorrect (passRules dayPlan) <= grammarScoreOf dayPlan s)%Q
     /\ (listeningMinCorrect (passRules dayPlan) <= listeningScoreOf dayPlan s)%Q
     /\ snd (evaluateOutput regexTest dayPlan (outputText s)) = true)
  /\ result (app_session st') = Some res
  /\ (passed res = true ->
      app_progress st'
      = mkProgress (safeDay p + 1) (Z.max (maxUnlockedDay p) (safeDay p + 1)) "learn")
  /\ (passed res = false -> app_progress st' = p).
Proof.
  cbv zeta. unfold checkPassAndUnlock.
  split; [|split; [|split]].
  - unfold verdict; cbn [passed].
    rewrite !andb_true_iff, !Qle_bool_true. tauto.
  - destruct (passed (verdict regexTest dayPlan (app_session st))); reflexivity.
  - intros ->. reflexivity.
  - intros ->. reflexivity.
Qed.

(** ** Recording an answer *)

Lemma locked_is_Some {K : Type} `{Countable K} (chosen : gmap K string) (k : K) :
  is_Some (chosen !! k) -> locked chosen k = true.
Proof. intros [c Hc]. unfold locked. rewrite Hc. reflexivity. Qed.

(** C3, as the code has it. Once a question has a recorded answer its
    choice buttons are disabled, so a further click, whatever its choice,
    changes neither the stored choice nor any count, in each of the three
    quiz sets; the guard is the button's, not the handler's. *)
Theorem answered_question_is_locked :
  (forall i q c s, is_Some (vocabChosen s !! i) -> clickVocabChoice i q c s = s)
  /\ (forall i q c s,
        is_Some (grammarChosen s !! i) -> clickGrammarChoice i q c s = s)
  /\ (forall item c s,
        is_Some (listeningChosen s !! key item) ->
        clickListeningChoice item c s = s).
Proof.
  unfold clickVocabChoice, clickGrammarChoice, clickListeningChoice.
  repeat split; intros; rewrite locked_is_Some; auto.
Qed.

Lemma answered_question_is_locked_witness :
  let s := clickVocabChoice 0 Sample.vq1 "street" freshSession in
  clickVocabChoice 0 Sample.vq1 "school" s = s.
Proof.
  apply (proj1 answered_question_is_locked). vm_compute. eauto.
Defined.

(** C3, as stated, fails on the handler: called for a question that has an
    answer, [vocabOnClick] replaces the stored choice and counts the new
    one. *)
Lemma handler_overwrites_answer :
  ~ (forall i q c s,
       is_Some (vocabChosen s !! i) ->
       vocabChosen (vocabOnClick i q c s) !! i = vocabChosen s !! i
       /\ vocabCorrect (vocabOnClick i q c s) = vocabCorrect s).
Proof.
  intros H.
  destruct (H 0%nat Sample.vq1 "school"
              (vocabOnClick 0 Sample.vq1 "street" freshSession)) as [_ Hcount].
  - vm_compute. eauto.
  - vm_compute in Hcount. discriminate.
Qed.


Lemma checkPassAndUnlock_gate_witness :
  app_progress (checkPassAndUnlock Sample.noRegex Sample.day1 SampleRun.ready)
  = mkProgress 2 2 "learn"
  /\ app_progress (checkPassAndUnlock Sample.noRegex Sample.day1 SampleRun.unready)
     = mkProgress 1 1 "quiz".
Proof.
  split.
  - pose proof (checkPassAndUnlock_gate Sample.noRegex Sample.day1 SampleRun.ready)
      as (_ & _ & Hpass & _).
    apply Hpass. vm_compute. reflexivity.
  - pose proof (checkPassAndUnlock_gate Sample.noRegex Sample.day1 SampleRun.unready)
      as (_ & _ & _ & Hfail).
    apply Hfail. vm_compute. reflexivity.
Defined.

(** ** Loading the progress *)

Module StoreFacts.
Import Store StoreSpec.

Lemma tryCatch_returns {A : Type} (body : Outcome A) (d : A) :
  exists v, tryCatch body (Return d) = Return v.
Proof. destruct body; simpl; eauto. Qed.

(** What an object in storage loads as: each member that is present and
    not [null], as it is, and the default for each of the others. *)
Lemma loadProgress_object (JSON_parse : string -> Outcome Json)
    (ls : LocalStorage) (c : ascii) (text : string) (members : list (string * Json)) :
  accessible ls = true ->
  items ls !! STORAGE_KEY = Some (String c text) ->
  JSON_parse (String c text) = Return (JObj members) ->
  loadProgress JSON_parse ls
  = Return (mkProgress (nullish (member "currentDay" members) (JNum 1))
                       (nullish (member "maxUnlockedDay" members) (JNum 1))
                       (nullish (member "mode" members) (JStr "learn"))).
Proof.
  intros Hacc Hitem Hparse. unfold loadProgress, getItem.
  rewrite Hacc. cbn. rewrite Hitem. cbn. rewrite Hparse. reflexivity.
Qed.

Lemma loadProgress_not_an_object (JSON_parse : string -> Outcome Json)
    (ls : LocalStorage) :
  AbsentOrNotAnObject JSON_parse ls ->
  loadProgress JSON_parse ls = Return defaults.
Proof.
  unfold loadProgress, getItem.
  destruct (accessible ls) eqn:Hacc; [|reflexivity].
  intros [Hden|Habs|Hemp|text e Hitem Hparse|text v Hitem Hparse Hobj].
  - congruence.
  - cbn. rewrite Habs. reflexivity.
  - cbn. rewrite Hemp. reflexivity.
  - cbn. rewrite Hitem. destruct text; [reflexivity|].
    cbn. rewrite Hparse. reflexivity.
  - cbn. rewrite Hitem. destruct text; [reflexivity|].
    cbn. rewrite Hparse. destruct v; try discriminate; reflexivity.
Qed.

(** Every storage is of one of the two kinds: absent or not an object, or
    readable with a non-empty text that parses to an object. *)
Lemma storage_cases (JSON_parse : string -> Outcome Json) (ls : LocalStorage) :
  AbsentOrNotAnObject JSON_parse ls
  \/ (exists text members,
        accessible ls = true /\ items ls !! STORAGE_KEY = Some text
        /\ text <> EmptyString /\ JSON_parse text = Return (JObj members)).
Proof.
  destruct (accessible ls) eqn:Hacc; [|left; apply storage_denied; exact Hacc].
  destruct (items ls !! STORAGE_KEY) as [text|] eqn:Hitem;
    [|left; apply item_absent; exact Hitem].
  destruct text as [|c text]; [left; apply item_empty; exact Hitem|].
  destruct (JSON_parse (String c text)) as [v|e] eqn:Hparse;
    [|left; apply (item_unparsable _ _ _ e Hitem Hparse)].
  destruct (isObject v) eqn:Hobj;
    [|left; apply (item_not_object _ _ _ v Hitem Hparse Hobj)].
  destruct v; try discriminate.
  right. exists (String c text), members. repeat split; auto; discriminate.
Qed.

(** C5, as the code has it. [loadProgress] always returns a progress and
    never throws. When the persisted value cannot be read, is absent or
    empty, does not parse, or parses to something that is not an object, it
    returns the default [{currentDay: 1, maxUnlockedDay: 1, mode: "learn"}].
    In the one remaining case, an object, each field is defaulted on its
    own: it is the stored member where that is present and not [null], and
    its default otherwise, with no check of the member's type or range. *)
Theorem loadProgress_total_and_memberwise (JSON_parse : string -> Outcome Json)
    (ls : LocalStorage) :
  (exists p, loadProgress JSON_parse ls = Return p)
  /\ (AbsentOrNotAnObject JSON_parse ls ->
      loadProgress JSON_parse ls = Return defaults)
  /\ (forall text members,
        accessible ls = true ->
        items ls !! STORAGE_KEY = Some text ->
        text <> EmptyString ->
        JSON_parse text = Return (JObj members) ->
        loadProgress JSON_parse ls
        = Return (mkProgress (nullish (member "currentDay" members) (JNum 1))
                             (nullish (member "maxUnlockedDay" members) (JNum 1))
                             (nullish (member "mode" members) (JStr "learn"))))
  /\ (AbsentOrNotAnObject JSON_parse ls
      \/ exists text members,
           accessible ls = true /\ items ls !! STORAGE_KEY = Some text
           /\ text <> EmptyString /\ JSON_parse text = Return (JObj members)).
Proof.
  split; [apply tryCatch_returns|].
  split; [apply loadProgress_not_an_object|].
  split; [|apply storage_cases].
  intros text members Hacc Hitem Hne Hparse.
  destruct text as [|c text]; [congruence|].
  apply (loadProgress_object JSON_parse ls c text members); assumption.
Qed.

Lemma loadProgress_total_and_memberwise_witness :
  loadProgress toyParse (storing "{currentDay:") = Return defaults
  /\ loadProgress toyParse (storing "null") = Return defaults
  /\ loadProgress toyParse {| accessible := true; items := ∅ |} = Return defaults
  /\ loadProgress objectParse (storing partialText)
     = Return (mkProgress (JNum 3) (JNum 1) (JStr "learn")).
Proof.
  split; [|split; [|split]].
  - apply (loadProgress_total_and_memberwise toyParse (storing "{currentDay:")).
    apply (item_unparsable _ _ "{currentDay:" SyntaxError); reflexivity.
  - apply (loadProgress_total_and_memberwise toyParse (storing "null")).
    apply (item_not_object _ _ "null" JNull); reflexivity.
  - apply (loadProgress_total_and_memberwise toyParse
             {| accessible := true; items := ∅ |}).
    apply item_absent. reflexivity.
  - pose proof (loadProgress_total_and_memberwise objectParse (storing partialText))
      as (_ & _ & Hobject & _).
    apply (Hobject partialText [("currentDay", JNum 3)]).
    + reflexivity.
    + reflexivity.
    + discriminate.
    + reflexivity.
Defined.

(** C5, as stated, fails on a stored object: a value that parses but is not
    a well-formed progress (a day that is a string, a day below 1, a mode
    that is a number) is corrupt, yet it is loaded as stored and not replaced
    by the default. *)
Lemma corrupt_object_is_loaded_as_stored :
  ~ (forall (JSON_parse : string -> Outcome Json) (ls : LocalStorage),
       AbsentOrCorrupt JSON_parse ls ->
       loadProgress JSON_parse ls = Return defaults).
Proof.
  intros H.
  specialize (H objectParse (storing corruptText)).
  assert (Hloaded : loadProgress objectParse (storing corruptText)
                    = Return (mkProgress (JStr "abc") (JNum (-3 # 1)) (JNum 42)))
    by reflexivity.
  rewrite Hloaded in H.
  assert (Hcorrupt : AbsentOrCorrupt objectParse (storing corruptText)).
  { apply (item_corrupt _ _ corruptText corruptObject); reflexivity. }
  specialize (H Hcorrupt). discriminate H.
Qed.

(** A stored object that lacks members is completed, not replaced. *)
Example partial_object_is_completed :
  validProgress partialObject = false
  /\ loadProgress objectParse (storing partialText)
     = Return (mkProgress (JNum 3) (JNum 1) (JStr "learn")).
Proof. split; reflexivity. Qed.

End StoreFacts.

(** ** The unlocked bound over a session *)

Section Monotone.

Variable regexTest : string -> string -> bool.
Variable dayPlans : list DayPlan.

Lemma goToDay_keeps_bound (d : Z) (p : Progress) :
  maxUnlockedDay (goToDay d p) = maxUnlockedDay p.
Proof.
  unfold goToDay.
  destruct (d <? 1)%Z; [reflexivity|].
  destruct (d >? maxUnlockedDay p)%Z; reflexivity.
Qed.

Lemma checkPassAndUnlock_bound (dayPlan : DayPlan) (st : App) :
  let st' := checkPassAndUnlock regexTest dayPlan st in
  maxUnlockedDay (app_progress st') = maxUnlockedDay (app_progress st)
  \/ maxUnlockedDay (app_progress st')
     = Z.max (maxUnlockedDay (app_progress st)) (safeDay (app_progress st) + 1).
Proof.
  cbv zeta. unfold checkPassAndUnlock.
  destruct (passed (verdict regexTest dayPlan (app_session st)));
    [right | left]; reflexivity.
Qed.

Lemma dayChangeEffect_progress (st st' : App) :
  app_progress (dayChangeEffect st st') = app_progress st'.
Proof.
  unfold dayChangeEffect.
  destruct (safeDay (app_progress st) =? safeDay (app_progress st'))%Z; reflexivity.
Qed.

Lemma handle_bound (dayPlan : DayPlan) (e : Event) (st : App) :
  isReset e = false ->
  maxUnlockedDay (app_progress st)
  <= maxUnlockedDay (app_progress (handle regexTest dayPlan e st)).
Proof.
  intros Hreset. destruct e; cbn [handle]; try discriminate.
  - reflexivity.
  - cbn. rewrite goToDay_keeps_bound. reflexivity.
  - destruct (vocab_quiz dayPlan !! i); reflexivity.
  - destruct (g_quiz (grammar dayPlan) !! i); reflexivity.
  - destruct (flattenListeningQuiz (Some dayPlan) !! idx); reflexivity.
  - reflexivity.
  - unfold checkWritingRules.
    destruct (evaluateOutput regexTest dayPlan (outputText (app_session st)));
      reflexivity.
  - destruct (checkPassAndUnlock_bound dayPlan st) as [-> | ->]; lia.
Qed.

Lemma step_bound (st : App) (e : Event) :
  isReset e = false ->
  maxUnlockedDay (app_progress st)
  <= maxUnlockedDay (app_progress (step regexTest dayPlans st e)).
Proof.
  intros Hreset. unfold step. rewrite dayChangeEffect_progress.
  destruct (dayPlanOf dayPlans (app_progress st)) as [dayPlan|].
  - apply handle_bound. exact Hreset.
  - destruct e; try discriminate; reflexivity.
Qed.

(** C2. Over any sequence of events without a reset, so over any sequence
    of [goToDay] and [checkPassAndUnlock] calls from any state,
    [maxUnlockedDay] never decreases: [goToDay] does not write it, and
    [checkPassAndUnlock] leaves it or sets it to
    [max(maxUnlockedDay, activeDay + 1)]. *)
Theorem maxUnlockedDay_never_decreases (st : App) (events : list Event) :
  Forall (fun e => isReset e = false) events ->
  maxUnlockedDay (app_progress st)
  <= maxUnlockedDay (app_progress (run regexTest dayPlans st events))
  /\ (forall d,
        maxUnlockedDay (app_progress (step regexTest dayPlans st (GoToDay d)))
        = maxUnlockedDay (app_progress st))
  /\ (let st' := step regexTest dayPlans st CheckAndUnlock in
      maxUnlockedDay (app_progress st') = maxUnlockedDay (app_progress st)
      \/ maxUnlockedDay (app_progress st')
         = Z.max (maxUnlockedDay (app_progress st))
                 (safeDay (app_progress st) + 1)).
Proof.
  intros Hevents. split; [|split].
  - revert st. unfold run.
    induction Hevents as [|e events He _ IH]; intros st; simpl.
    + reflexivity.
    + etransitivity; [apply (step_bound st e He) | apply IH].
  - intros d. unfold step. rewrite dayChangeEffect_progress.
    destruct (dayPlanOf dayPlans (app_progress st)); [|reflexivity].
    cbn. apply goToDay_keeps_bound.
  - cbv zeta. unfold step. rewrite dayChangeEffect_progress.
    destruct (dayPlanOf dayPlans (app_progress st)) as [dayPlan|].
    + apply checkPassAndUnlock_bound.
    + left. reflexivity.
Qed.

End Monotone.

Lemma maxUnlockedDay_never_decreases_witness :
  let events :=
    (SampleRun.answers ++ [CheckAndUnlock; GoToDay 1; CheckAndUnlock; GoToDay 7])%list in
  maxUnlockedDay (app_progress SampleRun.start)
  <= maxUnlockedDay
       (app_progress
          (run Sample.noRegex [Sample.day1; Sample.day2] SampleRun.start events)).
Proof.
  apply (maxUnlockedDay_never_decreases Sample.noRegex [Sample.day1; Sample.day2]
           SampleRun.start).
  repeat constructor.
Defined.

(** ** The listening block *)

(** C10, as the code has it. [getListeningSegments] is a total function: a
    non-empty [segments] array is returned as it is; without one, a legacy
    [text] that is present and not the empty string gives the single segment
    [{id: 1, title: "Listening", text, repeat: 1, quiz}], whose quiz is the
    legacy quiz when that is an array and the empty list otherwise; and a day
    plan with no listening block, or a block with neither, gives the empty
    list. *)
Theorem getListeningSegments_cases (dayPlan : option DayPlan) :
  match dayPlan ≫= listening with
  | None => getListeningSegments dayPlan = []
  | Some L =>
      (forall seg segs,
         segments L = Some (seg :: segs) ->
         getListeningSegments dayPlan = seg :: segs)
      /\ (segments L = None \/ segments L = Some [] ->
          forall t, L_text L = Some t -> t <> EmptyString ->
          getListeningSegments dayPlan
          = [ {| seg_id := 1; seg_title := "Listening"; seg_text := t;
                 seg_repeat := 1;
                 seg_quiz := Some (match L_quiz L with
                                   | Some quiz => quiz
                                   | None => []
                                   end) |} ])
      /\ (segments L = None \/ segments L = Some [] ->
          L_text L = None \/ L_text L = Some EmptyString ->
          getListeningSegments dayPlan = [])
  end.
Proof.
  unfold getListeningSegments.
  destruct (dayPlan ≫= listening) as [L|]; [|reflexivity].
  split; [|split].
  - intros seg segs ->. reflexivity.
  - intros [-> | ->] t -> Ht; cbn; (destruct t; [congruence | reflexivity]).
  - intros [-> | ->] [-> | ->]; reflexivity.
Qed.

Lemma getListeningSegments_cases_witness :
  getListeningSegments (Some Sample.day2)
  = [ {| seg_id := 1; seg_title := "Listening";
         seg_text := "Anna geht in die Schule."; seg_repeat := 1;
         seg_quiz := Some [] |} ].
Proof.
  pose proof (getListeningSegments_cases (Some Sample.day2)) as H.
  cbn in H. destruct H as (_ & Hlegacy & _).
  apply (Hlegacy (or_intror eq_refl) "Anna geht in die Schule." eq_refl).
  discriminate.
Defined.

(** C10, as stated, fails where the legacy text is present and empty: with
    an empty [segments] array the result is then no segment at all. *)
Lemma empty_legacy_text_gives_no_segment :
  ~ (forall dayPlan L t,
       dayPlan ≫= listening = Some L ->
       segments L = None \/ segments L = Some [] ->
       L_text L = Some t ->
       getListeningSegments dayPlan = [legacySegment L t]).
Proof.
  intros H.
  pose (L := {| segments := Some []; L_text := Some EmptyString;
                L_quiz := Some [Sample.lq1] |}).
  specialize (H (Some (Sample.plan 1 (Some L))) L EmptyString
                eq_refl (or_intror eq_refl) eq_refl).
  vm_compute in H. discriminate.
Qed.

(** *** Flattening *)

Lemma forEach_from_push {A B : Type} (g : nat -> A -> list B)
    (n : nat) (xs : list A) (acc : list B) :
  forEach_from (fun x i out => (out ++ g i x)%list) n xs acc
  = (acc ++ mjoin (imap (fun i => g (n + i)%nat) xs))%list.
Proof.
  revert n acc. induction xs as [|x xs IH]; intros n acc; simpl.
  - rewrite app_nil_r. reflexivity.
  - rewrite IH, Nat.add_0_r, <- app_assoc. do 3 f_equal.
    apply imap_ext. intros i y _. simpl. f_equal. lia.
Qed.

Lemma forEach_from_ext {A B : Type} (f f' : A -> nat -> B -> B)
    (n : nat) (xs : list A) (acc : B) :
  (forall x i out, f x i out = f' x i out) ->
  forEach_from f n xs acc = forEach_from f' n xs acc.
Proof.
  intros Hff'. revert n acc.
  induction xs as [|x xs IH]; intros n acc; simpl; [reflexivity|].
  rewrite Hff'. apply IH.
Qed.

Lemma join_imap_singleton {A B : Type} (f : nat -> A -> B) (xs : list A) :
  mjoin (imap (fun i x => [f i x]) xs) = imap f xs.
Proof.
  revert f. induction xs as [|x xs IH]; intros f; simpl; [reflexivity|].
  f_equal. apply IH.
Qed.

(** The accumulating loops of [flattenListeningQuiz] build the
    concatenation, segment after segment, of each segment's questions in
    their order. *)
Lemma flattenListeningQuiz_concat (dayPlan : option DayPlan) :
  flattenListeningQuiz dayPlan
  = mjoin (imap (fun segIndex seg => imap (flatQuestion segIndex) (quizOf seg))
                (getListeningSegments dayPlan)).
Proof.
  unfold flattenListeningQuiz, forEach.
  rewrite (forEach_from_ext _
             (fun seg segIndex out =>
                (out ++ imap (flatQuestion segIndex) (quizOf seg))%list)).
  - rewrite (forEach_from_push
               (fun segIndex seg => imap (flatQuestion segIndex) (quizOf seg))).
    reflexivity.
  - intros seg segIndex out.
    rewrite (forEach_from_push (fun qIndex q => [flatQuestion segIndex qIndex q])).
    simpl. rewrite join_imap_singleton. reflexivity.
Qed.

(** *** Keys *)

Lemma numeral_inj (m n : nat) : Js.numeral m = Js.numeral n -> m = n.
Proof.
  unfold Js.numeral. intros Heq.
  apply Unsigned.to_uint_inj.
  assert (Hsome : Some (Nat.to_uint m) = Some (Nat.to_uint n))
    by (rewrite <- !NilEmpty.usu, Heq; reflexivity).
  congruence.
Qed.

Lemma string_of_uint_no_dash (d : Decimal.uint) (s1 s2 : string) :
  NilEmpty.string_of_uint d <> s1 ++ String "-" s2.
Proof.
  revert s1. induction d as [|d IH|d IH|d IH|d IH|d IH|d IH|d IH|d IH|d IH|d IH];
    intros s1 Heq; destruct s1 as [|c s1]; simpl in Heq;
    try discriminate; injection Heq as _ Heq; exact (IH _ Heq).
Qed.

Lemma dash_splits_once (s t s' t' : string) :
  (forall s1 s2, s <> s1 ++ String "-" s2) ->
  (forall s1 s2, s' <> s1 ++ String "-" s2) ->
  s ++ String "-" t = s' ++ String "-" t' ->
  s = s' /\ t = t'.
Proof.
  revert s'. induction s as [|c s IH]; intros s' Hs Hs' Heq.
  - destruct s' as [|c' s']; simpl in Heq.
    + injection Heq as ->. split; reflexivity.
    + injection Heq as <- _. exfalso. exact (Hs' EmptyString s' eq_refl).
  - destruct s' as [|c' s']; simpl in Heq.
    + injection Heq as -> _. exfalso. exact (Hs EmptyString s eq_refl).
    + injection Heq as -> Heq.
      destruct (IH s') as [-> ->]; [| |exact Heq|split; reflexivity].
      * intros s1 s2 ->. exact (Hs (String c' s1) s2 eq_refl).
      * intros s1 s2 ->. exact (Hs' (String c' s1) s2 eq_refl).
Qed.

Lemma listeningKey_inj (a b c d : nat) :
  listeningKey a b = listeningKey c d -> a = c /\ b = d.
Proof.
  unfold listeningKey. intros Heq.
  destruct (dash_splits_once (Js.numeral a) (Js.numeral b)
                             (Js.numeral c) (Js.numeral d)) as [Hac Hbd].
  - intros s1 s2. apply string_of_uint_no_dash.
  - intros s1 s2. apply string_of_uint_no_dash.
  - exact Heq.
  - split; apply numeral_inj; assumption.
Qed.

(** *** Order *)

Lemma earlier_irrefl (x : FlatQuestion) : ~ earlier x x.
Proof. unfold earlier. lia. Qed.

Lemma segment_questions_sorted (s m : nat) (qs : list Question) :
  let items := imap (fun j => flatQuestion s (m + j)) qs in
  StronglySorted earlier items
  /\ Forall (fun x => segIndex x = s /\ (m <= qIndex x)%nat) items.
Proof.
  cbv zeta. revert m. induction qs as [|q0 qs IH]; intros m; simpl.
  - split; constructor.
  - destruct (IH (S m)) as [Hsorted Hall].
    assert (Hshift : imap ((fun j => flatQuestion s (m + j)) ∘ S) qs
                     = imap (fun j => flatQuestion s (S m + j)) qs).
    { apply imap_ext. intros j y _. simpl. f_equal. lia. }
    rewrite Hshift. split.
    + constructor; [exact Hsorted|].
      eapply Forall_impl; [exact Hall|].
      intros x [Hs Hq]. right. simpl. split; [congruence | lia].
    + constructor; [simpl; split; [reflexivity | lia]|].
      eapply Forall_impl; [exact Hall|].
      intros x [Hs Hq]. split; [exact Hs | lia].
Qed.

Lemma segments_sorted (n : nat) (segs : list Segment) :
  let items :=
    mjoin (imap (fun i seg => imap (flatQuestion (n + i)) (quizOf seg)) segs) in
  StronglySorted earlier items
  /\ Forall (fun x => (n <= segIndex x)%nat) items.
Proof.
  cbv zeta. revert n. induction segs as [|seg segs IH]; intros n; simpl.
  - split; constructor.
  - destruct (IH (S n)) as [Hsorted Hall].
    assert (Hshift :
      imap ((fun i seg => imap (flatQuestion (n + i)) (quizOf seg)) ∘ S) segs
      = imap (fun i seg => imap (flatQuestion (S n + i)) (quizOf seg)) segs).
    { apply imap_ext. intros i y _. simpl. do 2 f_equal. lia. }
    rewrite Hshift.
    destruct (segment_questions_sorted (n + 0) 0 (quizOf seg)) as [Hhead Hin].
    simpl in Hhead, Hin. split.
    + apply StronglySorted_app. split; [|split; assumption].
      intros x1 x2 Hx1 Hx2.
      rewrite Forall_forall in Hin, Hall.
      destruct (Hin x1 Hx1) as [Hs1 _]. specialize (Hall x2 Hx2).
      left. lia.
    + apply Forall_app. split.
      * eapply Forall_impl; [exact Hin|]. intros x [Hs _]. rewrite Hs. lia.
      * eapply Forall_impl; [exact Hall|]. intros x Hx. cbv beta in Hx. lia.
Qed.

Lemma flatQuestion_eta (x : FlatQuestion) :
  key x = listeningKey (segIndex x) (qIndex x) ->
  x = flatQuestion (segIndex x) (qIndex x) (fq x).
Proof. destruct x; simpl. intros ->. reflexivity. Qed.

Lemma flattenListeningQuiz_elem (dayPlan : option DayPlan) (x : FlatQuestion) :
  x ∈ flattenListeningQuiz dayPlan <->
  exists seg,
    getListeningSegments dayPlan !! segIndex x = Some seg
    /\ quizOf seg !! qIndex x = Some (fq x)
    /\ key x = listeningKey (segIndex x) (qIndex x).
Proof.
  rewrite flattenListeningQuiz_concat, list_elem_of_join. split.
  - intros (items & Hx & Hitems).
    apply elem_of_lookup_imap in Hitems as (i & seg & -> & Hseg).
    apply elem_of_lookup_imap in Hx as (j & q & -> & Hq).
    exists seg. simpl. auto.
  - intros (seg & Hseg & Hq & Hkey).
    exists (imap (flatQuestion (segIndex x)) (quizOf seg)). split.
    + rewrite (flatQuestion_eta x Hkey) at 1.
      apply elem_of_lookup_imap. eauto.
    + apply elem_of_lookup_imap. eauto.
Qed.

Lemma sorted_keys_NoDup (items : list FlatQuestion) :
  StronglySorted earlier items ->
  Forall (fun x => key x = listeningKey (segIndex x) (qIndex x)) items ->
  NoDup (map key items).
Proof.
  induction 1 as [|x items _ IH Hx]; intros Hkeys; simpl.
  - constructor.
  - apply Forall_cons in Hkeys as [Hkx Hkeys].
    constructor; [|apply IH; exact Hkeys].
    intros Hin. apply list_elem_of_fmap in Hin as (y & Hxy & Hy).
    rewrite Forall_forall in Hx, Hkeys.
    specialize (Hx y Hy). rewrite Hkx, (Hkeys y Hy) in Hxy.
    apply listeningKey_inj in Hxy as [Hs Hq].
    unfold earlier in Hx. lia.
Qed.

(** C9. [flattenListeningQuiz] emits the questions in segment order and,
    within a segment, in question order: every earlier entry is before every
    later one in (segment index, question index) order, and the entries are
    exactly the questions of the segments, each at its indices and under the
    key built from them; keys of different index pairs differ, so the keys
    of the flattened list are pairwise distinct. *)
Theorem flattenListeningQuiz_order_and_keys (dayPlan : option DayPlan) :
  let segs := getListeningSegments dayPlan in
  let out := flattenListeningQuiz dayPlan in
  out = mjoin (imap (fun segIndex seg => imap (flatQuestion segIndex) (quizOf seg)) segs)
  /\ StronglySorted earlier out
  /\ (forall x,
        x ∈ out <->
        exists seg,
          segs !! segIndex x = Some seg
          /\ quizOf seg !! qIndex x = Some (fq x)
          /\ key x = listeningKey (segIndex x) (qIndex x))
  /\ (forall a b c d, listeningKey a b = listeningKey c d -> a = c /\ b = d)
  /\ NoDup (map key out).
Proof.
  cbv zeta.
  assert (Hsorted : StronglySorted earlier (flattenListeningQuiz dayPlan)).
  { rewrite flattenListeningQuiz_concat.
    apply (segments_sorted 0 (getListeningSegments dayPlan)). }
  split; [apply flattenListeningQuiz_concat|].
  split; [exact Hsorted|].
  split; [apply flattenListeningQuiz_elem|].
  split; [apply listeningKey_inj|].
  apply sorted_keys_NoDup; [exact Hsorted|].
  apply Forall_forall. intros x Hx.
  apply flattenListeningQuiz_elem in Hx as (_ & _ & _ & Hkey). exact Hkey.
Qed.

Example flattenListeningQuiz_day1 :
  map (fun x => (segIndex x, qIndex x, key x)) (flattenListeningQuiz (Some Sample.day1))
  = [ (0, 0, "0-0"); (2, 0, "2-0"); (2, 1, "2-1") ]%nat.
Proof. reflexivity. Qed.

(** ** The speech queue *)

Module SpeechFacts.
Import Speech.

Section Callbacks.

Variable speakThrows : Utterance -> bool.

(** The handlers [onend] and [onerror] of an utterance whose token is no
    longer the live one do nothing. *)
Lemma stale_end_and_error_are_dropped (u : Utterance) (st : Tts) :
  stopToken st <> u_token u ->
  onend speakThrows u st = st /\ onerror speakThrows u st = st.
Proof.
  intros Hstale. unfold onend, onerror.
  destruct (Z.eqb_spec (stopToken st) (u_token u)) as [Heq|_]; [contradiction|].
  split; reflexivity.
Qed.

(** Stopping moves the live token on and leaves the controller idle. *)
Lemma stopSpeaking_bumps (st : Tts) :
  stopToken (stopSpeaking st) = stopToken st + 1
  /\ controller (stopSpeaking st) = ([], false, None).
Proof. split; reflexivity. Qed.

(** The handler [onstart] has no such guard: whatever the tokens, it sets
    the speaking flag. *)
Lemma onstart_is_unguarded (u : Utterance) (st : Tts) :
  isSpeaking (onstart u st) = true.
Proof. reflexivity. Qed.

End Callbacks.

(** Scenario D. Play "a", "b"; stop before "a" completes; the completion
    callback of "a" then arrives late: the controller stays idle and "b" is
    never handed to the engine. *)
Example late_end_after_stop :
  let accept := fun _ : Utterance => false in
  let a := {| u_text := "a"; u_token := 1 |} in
  let stopped := perform accept (initial true) [Play ["a"; "b"]; Stop] in
  let late := act accept stopped (Ended a) in
  controller late = ([], false, None) /\ engine late = [a].
Proof. split; reflexivity. Qed.

(** C4 at the failing input. Play "a", "b", then stop: the live token is 2
    and the controller is idle. The utterance "a" carries the token 1. Its
    late [onend] is dropped, but its late [onstart] sets the speaking flag
    although its token is stale. *)
Theorem stale_start_sets_speaking_flag :
  let accept := fun _ : Utterance => false in
  let a := {| u_text := "a"; u_token := 1 |} in
  let stopped := perform accept (initial true) [Play ["a"; "b"]; Stop] in
  In a (engine stopped)
  /\ stopToken stopped = 2
  /\ controller stopped = ([], false, None)
  /\ controller (act accept stopped (Ended a)) = controller stopped
  /\ controller (act accept stopped (Failed a)) = controller stopped
  /\ controller (act accept stopped (Started a)) = ([], true, None).
Proof.
  cbv zeta. split; [left; reflexivity|].
  repeat split; reflexivity.
Qed.

End SpeechFacts.

(** * Further properties of the code *)

(** ** Counting sentences *)

Lemma append_empty_l (s : string) : EmptyString ++ s = s.
Proof. reflexivity. Qed.

Lemma append_cons_l (c : ascii) (s t : string) :
  String c s ++ t = String c (s ++ t).
Proof. reflexivity. Qed.

Lemma countSentences_pieces (text : string) :
  countSentences text = Z.of_nat (sentencePieces (Js.split_terminators text)).
Proof. reflexivity. Qed.

Lemma sentencePieces_cons (p : string) (ps : list string) :
  sentencePieces (p :: ps) = (sentencePieces [p] + sentencePieces ps)%nat.
Proof.
  unfold sentencePieces. simpl map.
  rewrite !filter_cons, filter_nil.
  destruct (decide (Is_true (Js.truthy (Js.trim p)))); simpl; reflexivity.
Qed.

Lemma sentencePieces_empty_head (ps : list string) :
  sentencePieces (EmptyString :: ps) = sentencePieces ps.
Proof. rewrite sentencePieces_cons. reflexivity. Qed.

Lemma split_after_terminator (t : string) :
  Js.startsWithTerminator t = true ->
  exists r, Js.split_terminators t = EmptyString :: r.
Proof.
  induction t as [|c t IH]; simpl; [discriminate|].
  intros ->. destruct (Js.startsWithTerminator t); eauto.
Qed.

Lemma split_terminator_first (c : ascii) (t : string) :
  Js.isTerminator c = true ->
  exists r, Js.split_terminators (String c t) = EmptyString :: r
            /\ sentencePieces r = sentencePieces (Js.split_terminators t).
Proof.
  intros Hc. simpl. rewrite Hc.
  destruct (Js.startsWithTerminator t) eqn:Ht.
  - destruct (split_after_terminator t Ht) as [r Hr].
    exists r. rewrite Hr, sentencePieces_empty_head. auto.
  - eauto.
Qed.

Lemma split_app_terminator (c : ascii) (s t : string) :
  Js.isTerminator c = true ->
  exists h r0 r,
    Js.split_terminators s = h :: r0
    /\ Js.split_terminators (s ++ String c t) = h :: r
    /\ sentencePieces r
       = (sentencePieces r0 + sentencePieces (Js.split_terminators t))%nat.
Proof.
  intros Hc. induction s as [|x s IH].
  - destruct (split_terminator_first c t Hc) as (r & Hr & Hn).
    exists EmptyString, [], r. rewrite append_empty_l, Hr. auto.
  - destruct IH as (h & r0 & r & Hs & Hst & Hn).
    destruct (Js.isTerminator x) eqn:Hx.
    + destruct (split_terminator_first x s Hx) as (q0 & Hq0 & Hn0).
      destruct (split_terminator_first x (s ++ String c t) Hx) as (q & Hq & Hn1).
      exists EmptyString, q0, q. rewrite append_cons_l, Hq0, Hq.
      repeat split; try reflexivity.
      rewrite Hn0, Hn1, Hs, Hst, (sentencePieces_cons h r), (sentencePieces_cons h r0), Hn.
      lia.
    + exists (String x h), r0, r. rewrite append_cons_l. simpl.
      rewrite Hx, Hs, Hst. auto.
Qed.

(** X1. A terminator cuts the count in two: the sentences of a text with a
    [.], [!] or [?] in it are those before it plus those after it. *)
Theorem countSentences_at_terminator (c : ascii) (s t : string) :
  Js.isTerminator c = true ->
  countSentences (s ++ String c t) = countSentences s + countSentences t.
Proof.
  intros Hc. rewrite !countSentences_pieces.
  destruct (split_app_terminator c s t Hc) as (h & r0 & r & -> & -> & Hn).
  rewrite (sentencePieces_cons h r), (sentencePieces_cons h r0), Hn. lia.
Qed.

Lemma countSentences_at_terminator_witness :
  countSentences ("Hallo" ++ String "!" " Wie geht es dir?")
  = countSentences "Hallo" + countSentences " Wie geht es dir?".
Proof. apply countSentences_at_terminator. reflexivity. Defined.

Lemma split_without_terminator (text : string) :
  (forall s1 c s2, text = s1 ++ String c s2 -> Js.isTerminator c = false) ->
  Js.split_terminators text = [text].
Proof.
  induction text as [|x text IH]; intros Hno; [reflexivity|].
  simpl. rewrite (Hno EmptyString x text eq_refl), IH; [reflexivity|].
  intros s1 c s2 ->. exact (Hno (String x s1) c s2 eq_refl).
Qed.

(** X2. A text without any terminator is one sentence, or none when it is
    blank; extra punctuation at the end of a text adds no sentence. *)
Theorem countSentences_without_terminator (text : string) :
  (forall s1 c s2, text = s1 ++ String c s2 -> Js.isTerminator c = false) ->
  countSentences text = (if Js.truthy (Js.trim text) then 1 else 0)
  /\ (forall c, Js.isTerminator c = true ->
        countSentences (text ++ String c EmptyString) = countSentences text).
Proof.
  intros Hno. split.
  - rewrite countSentences_pieces, split_without_terminator by exact Hno.
    unfold sentencePieces. simpl map. rewrite filter_cons, filter_nil.
    destruct (Js.truthy (Js.trim text)); reflexivity.
  - intros c Hc. rewrite countSentences_at_terminator by exact Hc.
    change (countSentences EmptyString) with 0. lia.
Qed.

Lemma countSentences_without_terminator_witness :
  countSentences "ja" = 1 /\ countSentences ("ja" ++ "!") = countSentences "ja".
Proof.
  assert (Hno : forall s1 c s2, "ja" = s1 ++ String c s2 -> Js.isTerminator c = false).
  { intros s1 c s2 Heq.
    destruct s1 as [|a1 [|a2 [|a3 s1]]]; simpl in Heq; inversion Heq; reflexivity. }
  destruct (countSentences_without_terminator "ja" Hno) as [Hone Hend].
  split; [exact Hone | apply Hend; reflexivity].
Defined.

(** ** Keywords and vocabulary *)

Lemma prefix_spec (w t : string) :
  String.prefix w t = true <-> exists post, t = w ++ post.
Proof.
  revert t. induction w as [|c w IH]; intros t.
  - split; [eauto | destruct t; reflexivity].
  - destruct t as [|c' t]; simpl.
    + split; [discriminate | intros [post Hpost]; discriminate].
    + destruct (Ascii.ascii_dec c c') as [<-|Hne].
      * rewrite IH. split; intros [post Hpost]; exists post.
        -- rewrite append_cons_l. congruence.
        -- rewrite append_cons_l in Hpost. congruence.
      * split; [discriminate|].
        intros [post Hpost]. rewrite append_cons_l in Hpost. congruence.
Qed.

Lemma includes_empty (w : string) :
  Js.includes EmptyString w = String.prefix w EmptyString || false.
Proof. reflexivity. Qed.

Lemma includes_cons (c : ascii) (t w : string) :
  Js.includes (String c t) w = String.prefix w (String c t) || Js.includes t w.
Proof. reflexivity. Qed.

Lemma includes_spec (t w : string) :
  Js.includes t w = true <-> exists pre post, t = pre ++ w ++ post.
Proof.
  induction t as [|c t IH].
  - rewrite includes_empty, orb_true_iff, prefix_spec. split.
    + intros [[post Hpost] | Hfalse]; [|discriminate].
      exists EmptyString, post. exact Hpost.
    + intros (pre & post & Heq). left. exists post.
      destruct pre; [exact Heq | discriminate].
  - rewrite includes_cons, orb_true_iff, prefix_spec, IH. split.
    + intros [[post Hpost] | (pre & post & ->)].
      * exists EmptyString, post. exact Hpost.
      * exists (String c pre), post. reflexivity.
    + intros (pre & post & Heq). destruct pre as [|c' pre].
      * left. exists post. exact Heq.
      * right. exists pre, post. rewrite append_cons_l in Heq. congruence.
Qed.

(** X3. [includesAny] holds exactly when the lower-cased text contains the
    lower-cased form of one of the words as a substring, anywhere and not
    only at word boundaries; so it never holds for an empty word list and
    always holds once the empty string is among the words. *)
Theorem includesAny_substring (haystack : string) (words : list string) :
  (includesAny haystack words = true <->
   exists w pre post,
     w ∈ words /\ Js.toLowerCase haystack = pre ++ Js.toLowerCase w ++ post)
  /\ includesAny haystack [] = false
  /\ (EmptyString ∈ words -> includesAny haystack words = true).
Proof.
  assert (Hiff : includesAny haystack words = true <->
     exists w pre post,
       w ∈ words /\ Js.toLowerCase haystack = pre ++ Js.toLowerCase w ++ post).
  { unfold includesAny, normalize. rewrite existsb_exists. split.
    - intros (w & Hw & Hinc). apply includes_spec in Hinc as (pre & post & Heq).
      exists w, pre, post. split; [apply list_elem_of_In; exact Hw | exact Heq].
    - intros (w & pre & post & Hw & Heq). exists w.
      split; [apply list_elem_of_In; exact Hw | apply includes_spec; eauto]. }
  split; [exact Hiff|]. split; [reflexivity|].
  intros Hin. apply Hiff.
  exists EmptyString, EmptyString, (Js.toLowerCase haystack). split; [exact Hin | reflexivity].
Qed.

Lemma includesAny_substring_witness :
  includesAny "Heute gehe ich in die SCHULE." ["kino"; ""] = true.
Proof.
  apply (includesAny_substring "Heute gehe ich in die SCHULE." ["kino"; ""]).
  apply list_elem_of_In. right. left. reflexivity.
Defined.

(** X4. [countVocabUsed] is the number of entries of the vocabulary list,
    repeated entries counted each time, whose lower-cased form occurs in the
    lower-cased text; so it lies between 0 and the length of the list. *)
Theorem countVocabUsed_counts_entries (text : string) (vocabList : list string) :
  countVocabUsed text vocabList
  = Z.of_nat (length (List.filter
                        (fun w => Js.includes (Js.toLowerCase text) (Js.toLowerCase w))
                        vocabList))
  /\ 0 <= countVocabUsed text vocabList <= Z.of_nat (length vocabList).
Proof.
  assert (Heq : countVocabUsed text vocabList
    = Z.of_nat (length (List.filter
                  (fun w => Js.includes (Js.toLowerCase text) (Js.toLowerCase w))
                  vocabList))).
  { unfold countVocabUsed, normalize.
    induction vocabList as [|w ws IH]; [reflexivity|].
    simpl fold_left. rewrite countVocabUsed_fold, IH. simpl List.filter.
    destruct (Js.includes (Js.toLowerCase text) (Js.toLowerCase w)); simpl length; lia. }
  split; [exact Heq|]. rewrite Heq.
  pose proof (List.filter_length_le
                (fun w => Js.includes (Js.toLowerCase text) (Js.toLowerCase w))
                vocabList).
  lia.
Qed.

(** ** Blank output *)

Lemma whitespace_is_no_terminator (c : ascii) :
  Js.isWhiteSpace c = true -> Js.isTerminator c = false.
Proof.
  destruct c as [[] [] [] [] [] [] [] []]; vm_compute; congruence.
Qed.

Lemma trimEnd_empty (s : string) (c : ascii) :
  Js.trimEnd (String c s) = EmptyString -> Js.isWhiteSpace c = true.
Proof.
  simpl. destruct (Js.trimEnd s); [|discriminate].
  destruct (Js.isWhiteSpace c); [reflexivity | discriminate].
Qed.

Lemma trim_empty_all_whitespace (text : string) :
  Js.trim text = EmptyString ->
  forall s1 c s2, text = s1 ++ String c s2 -> Js.isWhiteSpace c = true.
Proof.
  unfold Js.trim. induction text as [|x text IH]; intros Htrim s1 c s2 Heq.
  - destruct s1; discriminate.
  - simpl in Htrim. destruct (Js.isWhiteSpace x) eqn:Hx.
    + destruct s1 as [|y s1]; rewrite ?append_empty_l, ?append_cons_l in Heq.
      * congruence.
      * injection Heq as _ Heq. exact (IH Htrim s1 c s2 Heq).
    + apply trimEnd_empty in Htrim. congruence.
Qed.

(** X5. A blank text (empty after [trim]) has 0 characters and 0
    sentences in the report, so [evaluateOutput] fails it as soon as the day
    asks for at least one character or one sentence. *)
Theorem blank_output_fails (regexTest : string -> string -> bool)
    (dayPlan : DayPlan) (text : string) :
  Js.trim text = EmptyString ->
  let '(report, ok) := evaluateOutput regexTest dayPlan text in
  charCount report = 0 /\ sentences report = 0
  /\ (0 < minOutputChars (passRules dayPlan)
      \/ 0 < minSentences (outputRules dayPlan) -> ok = false).
Proof.
  intros Hblank.
  assert (Hcount : countSentences text = 0).
  { rewrite countSentences_pieces, split_without_terminator.
    - unfold sentencePieces. simpl map. rewrite Hblank. reflexivity.
    - intros s1 c s2 Heq. apply whitespace_is_no_terminator.
      exact (trim_empty_all_whitespace text Hblank s1 c s2 Heq). }
  unfold evaluateOutput. cbn [charCount sentences charsOk sentencesOk].
  rewrite Hblank, Hcount. change (Z.of_nat (String.length EmptyString)) with 0.
  split; [reflexivity|]. split; [reflexivity|].
  intros [Hc | Hs].
  - assert (Hleb : (minOutputChars (passRules dayPlan) <=? 0)%Z = false)
      by (apply Z.leb_gt; lia).
    rewrite Hleb. reflexivity.
  - assert (Hleb : (minSentences (outputRules dayPlan) <=? 0)%Z = false)
      by (apply Z.leb_gt; lia).
    rewrite Hleb, andb_false_r. reflexivity.
Qed.

Lemma blank_output_fails_witness :
  snd (evaluateOutput Sample.noRegex Sample.day1 "   ") = false.
Proof.
  pose proof (blank_output_fails Sample.noRegex Sample.day1 "   " eq_refl) as H.
  destruct (evaluateOutput Sample.noRegex Sample.day1 "   ") as [report ok].
  destruct H as (_ & _ & H). apply H. left. reflexivity.
Defined.

(** ** The days over a session *)

Section Days.

Variable regexTest : string -> string -> bool.
Variable dayPlans : list DayPlan.

Lemma handle_days_in_order (dayPlan : DayPlan) (e : Event) (st : App) :
  daysInOrder (app_progress st) ->
  daysInOrder (app_progress (handle regexTest dayPlan e st)).
Proof.
  unfold daysInOrder. intros Hord. destruct e; cbn [handle].
  - exact Hord.
  - cbn. unfold goToDay.
    destruct (Z.ltb_spec day0 1); [exact Hord|].
    destruct (Z.gtb_spec day0 (maxUnlockedDay (app_progress st))); [exact Hord|].
    simpl. lia.
  - destruct (vocab_quiz dayPlan !! i); exact Hord.
  - destruct (g_quiz (grammar dayPlan) !! i); exact Hord.
  - destruct (flattenListeningQuiz (Some dayPlan) !! idx); exact Hord.
  - exact Hord.
  - unfold checkWritingRules.
    destruct (evaluateOutput regexTest dayPlan (outputText (app_session st)));
      exact Hord.
  - unfold checkPassAndUnlock.
    destruct (passed (verdict regexTest dayPlan (app_session st))); [|exact Hord].
    cbn. unfold safeDay. lia.
  - cbn. lia.
Qed.

Lemma step_days_in_order (st : App) (e : Event) :
  daysInOrder (app_progress st) ->
  daysInOrder (app_progress (step regexTest dayPlans st e)).
Proof.
  intros Hord. unfold step. rewrite dayChangeEffect_progress.
  destruct (dayPlanOf dayPlans (app_progress st)) as [dayPlan|].
  - apply handle_days_in_order. exact Hord.
  - destruct e; try exact Hord. unfold daysInOrder. cbn. lia.
Qed.

(** X6. Whatever the learner does, reset included, the days stay in order:
    from a progress with [1 <= currentDay <= maxUnlockedDay] every run ends
    in such a progress, so the clamp [min(currentDay, maxUnlockedDay)] never
    cuts and the day shown is [currentDay]. *)
Theorem days_stay_in_order (st : App) (events : list Event) :
  daysInOrder (app_progress st) ->
  let st' := run regexTest dayPlans st events in
  daysInOrder (app_progress st')
  /\ safeDay (app_progress st') = currentDay (app_progress st').
Proof.
  intros Hord. cbv zeta.
  assert (Hend : daysInOrder (app_progress (run regexTest dayPlans st events))).
  { revert st Hord. unfold run.
    induction events as [|e events IH]; intros st Hord; simpl; [exact Hord|].
    apply IH. apply step_days_in_order. exact Hord. }
  split; [exact Hend|]. unfold daysInOrder in Hend. unfold safeDay. lia.
Qed.

Lemma step_unlocks_at_most_one (st : App) (e : Event) :
  isReset e = false ->
  maxUnlockedDay (app_progress (step regexTest dayPlans st e))
  <= maxUnlockedDay (app_progress st) + (if isCheckAndUnlock e then 1 else 0).
Proof.
  intros Hreset. unfold step. rewrite dayChangeEffect_progress.
  destruct (dayPlanOf dayPlans (app_progress st)) as [dayPlan|].
  - destruct e; cbn [handle isCheckAndUnlock]; try discriminate.
    + cbn. lia.
    + cbn. rewrite goToDay_keeps_bound. lia.
    + destruct (vocab_quiz dayPlan !! i); cbn; lia.
    + destruct (g_quiz (grammar dayPlan) !! i); cbn; lia.
    + destruct (flattenListeningQuiz (Some dayPlan) !! idx); cbn; lia.
    + cbn. lia.
    + unfold checkWritingRules.
      destruct (evaluateOutput regexTest dayPlan (outputText (app_session st)));
        cbn; lia.
    + destruct (checkPassAndUnlock_bound regexTest dayPlan st) as [-> | ->];
        unfold safeDay; lia.
  - destruct e; try discriminate; cbn; lia.
Qed.

(** X7. One evaluation unlocks at most one further day: over a run without
    reset, [maxUnlockedDay] grows by no more than the number of "Check and
    unlock" events in it. *)
Theorem unlocks_at_most_one_day_per_check (st : App) (events : list Event) :
  Forall (fun e => isReset e = false) events ->
  maxUnlockedDay (app_progress (run regexTest dayPlans st events))
  <= maxUnlockedDay (app_progress st)
     + Z.of_nat (length (List.filter isCheckAndUnlock events)).
Proof.
  intros Hevents. revert st. unfold run.
  induction Hevents as [|e events He _ IH]; intros st; simpl; [lia|].
  specialize (IH (step regexTest dayPlans st e)).
  pose proof (step_unlocks_at_most_one st e He) as Hstep.
  destruct (isCheckAndUnlock e); simpl length; lia.
Qed.

(** X8. What "Check and unlock" leaves behind. On a pass the next render
    is the next day with a fresh session: the answers, the text, the report
    and the verdict itself are cleared by the effect on the day. On a fail
    the progress, the answers and the text are kept, and the verdict and the
    report are recorded. *)
Theorem check_and_unlock_outcome (st : App) (dayPlan : DayPlan) :
  dayPlanOf dayPlans (app_progress st) = Some dayPlan ->
  let s := app_session st in
  let p := app_progress st in
  let res := verdict regexTest dayPlan s in
  let st' := step regexTest dayPlans st CheckAndUnlock in
  (passed res = true ->
   app_session st' = freshSession
   /\ safeDay (app_progress st') = safeDay p + 1
   /\ mode (app_progress st') = "learn")
  /\ (passed res = false ->
      app_progress st' = p
      /\ app_session st'
         = withOutput (outputText s)
             (Some (fst (evaluateOutput regexTest dayPlan (outputText s))))
             (Some res) s).
Proof.
  intros Hplan. cbv zeta. unfold step. rewrite Hplan. cbn [handle].
  unfold checkPassAndUnlock. split; intros Hpass; rewrite Hpass.
  - unfold dayChangeEffect. cbn [app_progress withProgress withSession].
    assert (Hnext : safeDay (unlock_update (safeDay (app_progress st) + 1)
                                           (app_progress st))
                    = safeDay (app_progress st) + 1).
    { unfold unlock_update, safeDay. cbn. lia. }
    rewrite Hnext.
    destruct (Z.eqb_spec (safeDay (app_progress st))
                         (safeDay (app_progress st) + 1)); [lia|].
    cbn. rewrite Hnext. auto.
  - unfold dayChangeEffect. cbn [app_progress withSession].
    rewrite Z.eqb_refl. split; reflexivity.
Qed.

Lemma verdict_withOutput (dayPlan : DayPlan) (s : Session)
    (rep : option Report) (res : option Result) :
  verdict regexTest dayPlan (withOutput (outputText s) rep res s)
  = verdict regexTest dayPlan s.
Proof. destruct s. reflexivity. Qed.

Lemma failing_step (st : App) (dayPlan : DayPlan) :
  dayPlanOf dayPlans (app_progress st) = Some dayPlan ->
  passed (verdict regexTest dayPlan (app_session st)) = false ->
  step regexTest dayPlans st CheckAndUnlock
  = withSession
      (withOutput (outputText (app_session st))
         (Some (fst (evaluateOutput regexTest dayPlan (outputText (app_session st)))))
         (Some (verdict regexTest dayPlan (app_session st))) (app_session st)) st.
Proof.
  intros Hplan Hfail. unfold step. rewrite Hplan. cbn [handle].
  unfold checkPassAndUnlock. rewrite Hfail.
  unfold dayChangeEffect. cbn [app_progress withSession].
  rewrite Z.eqb_refl. reflexivity.
Qed.

(** X9. A failing evaluation is idempotent: evaluating again right after
    a fail changes nothing. *)
Theorem failing_check_is_idempotent (st : App) (dayPlan : DayPlan) :
  dayPlanOf dayPlans (app_progress st) = Some dayPlan ->
  passed (verdict regexTest dayPlan (app_session st)) = false ->
  let st' := step regexTest dayPlans st CheckAndUnlock in
  step regexTest dayPlans st' CheckAndUnlock = st'.
Proof.
  intros Hplan Hfail. cbv zeta.
  rewrite (failing_step st dayPlan Hplan Hfail).
  set (s := app_session st).
  set (s1 := withOutput (outputText s)
               (Some (fst (evaluateOutput regexTest dayPlan (outputText s))))
               (Some (verdict regexTest dayPlan s)) s).
  assert (Hverdict : verdict regexTest dayPlan s1 = verdict regexTest dayPlan s)
    by apply verdict_withOutput.
  rewrite (failing_step (withSession s1 st) dayPlan).
  - cbn [app_session withSession]. rewrite Hverdict.
    change (outputText s1) with (outputText s). reflexivity.
  - exact Hplan.
  - cbn [app_session withSession]. rewrite Hverdict. exact Hfail.
Qed.

(** X10. "Reset" puts the progress back to day 1, but it clears the answers
    only through the effect on the day: a reset made while day 1 is shown
    keeps the recorded answers, the text and the verdict. *)
Theorem reset_outcome (st : App) :
  let st' := step regexTest dayPlans st Reset in
  app_progress st' = defaultProgress
  /\ (safeDay (app_progress st) <> 1 -> app_session st' = freshSession)
  /\ (safeDay (app_progress st) = 1 -> app_session st' = app_session st).
Proof.
  cbv zeta. unfold step.
  assert (Hreset :
    match dayPlanOf dayPlans (app_progress st) with
    | Some dayPlan => handle regexTest dayPlan Reset st
    | None => withProgress defaultProgress st
    end = withProgress defaultProgress st)
    by (destruct (dayPlanOf dayPlans (app_progress st)); reflexivity).
  rewrite Hreset. unfold dayChangeEffect. cbn [app_progress withProgress].
  change (safeDay defaultProgress) with 1.
  destruct (Z.eqb_spec (safeDay (app_progress st)) 1) as [Heq|Hne].
  - split; [reflexivity|]. split; [contradiction | reflexivity].
  - split; [reflexivity|]. split; [reflexivity | contradiction].
Qed.

End Days.

Lemma days_stay_in_order_witness :
  let st' :=
    run Sample.noRegex [Sample.day1; Sample.day2] SampleRun.start
      (SampleRun.answers ++ [CheckAndUnlock; GoToDay 1; GoToDay 5; Reset])%list in
  daysInOrder (app_progress st')
  /\ safeDay (app_progress st') = currentDay (app_progress st').
Proof.
  apply (days_stay_in_order Sample.noRegex [Sample.day1; Sample.day2] SampleRun.start).
  unfold daysInOrder. simpl. lia.
Defined.

Lemma unlocks_at_most_one_day_per_check_witness :
  let events := (SampleRun.answers ++ [CheckAndUnlock; CheckAndUnlock])%list in
  maxUnlockedDay
    (app_progress (run Sample.noRegex [Sample.day1; Sample.day2] SampleRun.start events))
  <= maxUnlockedDay (app_progress SampleRun.start)
     + Z.of_nat (length (List.filter isCheckAndUnlock events)).
Proof.
  apply (unlocks_at_most_one_day_per_check Sample.noRegex [Sample.day1; Sample.day2]).
  repeat constructor.
Defined.

Lemma check_and_unlock_outcome_witness :
  app_session
    (step Sample.noRegex [Sample.day1; Sample.day2] SampleRun.ready CheckAndUnlock)
  = freshSession
  /\ app_progress
       (step Sample.noRegex [Sample.day1; Sample.day2] SampleRun.unready CheckAndUnlock)
     = app_progress SampleRun.unready.
Proof.
  split.
  - pose proof (check_and_unlock_outcome Sample.noRegex [Sample.day1; Sample.day2]
                  SampleRun.ready Sample.day1 eq_refl) as [Hpass _].
    apply Hpass. vm_compute. reflexivity.
  - pose proof (check_and_unlock_outcome Sample.noRegex [Sample.day1; Sample.day2]
                  SampleRun.unready Sample.day1 eq_refl) as [_ Hfail].
    apply Hfail. vm_compute. reflexivity.
Defined.

Lemma failing_check_is_idempotent_witness :
  let st' :=
    step Sample.noRegex [Sample.day1; Sample.day2] SampleRun.unready CheckAndUnlock in
  step Sample.noRegex [Sample.day1; Sample.day2] st' CheckAndUnlock = st'.
Proof.
  apply (failing_check_is_idempotent Sample.noRegex [Sample.day1; Sample.day2]
           SampleRun.unready Sample.day1).
  - reflexivity.
  - vm_compute. reflexivity.
Defined.

Lemma reset_outcome_witness :
  app_session (step Sample.noRegex [Sample.day1; Sample.day2] SampleRun.ready Reset)
  = app_session SampleRun.ready.
Proof.
  apply (reset_outcome Sample.noRegex [Sample.day1; Sample.day2] SampleRun.ready).
  reflexivity.
Defined.

(** ** Scores over a session *)

Lemma ratioOrOne_unit (correct : Z) (total : nat) :
  0 <= correct <= Z.of_nat total ->
  (0 <= ratioOrOne correct total <= 1)%Q.
Proof.
  intros [Hlo Hhi]. unfold ratioOrOne.
  destruct (Nat.eqb_spec total 0) as [->|Hn].
  - split; unfold Qle; simpl; lia.
  - assert (Hpos : (0 < inject_Z (Z.of_nat total))%Q)
      by (unfold Qlt, inject_Z; simpl; lia).
    split.
    + apply Qle_shift_div_l; [exact Hpos|].
      unfold Qle, Qmult, inject_Z; simpl. lia.
    + apply Qle_shift_div_r; [exact Hpos|].
      unfold Qle, Qmult, inject_Z; simpl. lia.
Qed.

Lemma size_within_list `{Countable K} (m : gmap K string) (l : list K) :
  NoDup l ->
  (forall k, is_Some (m !! k) -> k ∈ l) ->
  (size m <= length l)%nat.
Proof.
  intros Hnodup Hkeys.
  rewrite <- (size_dom (D := gset K)), <- (size_list_to_set (C := gset K) l Hnodup).
  apply subseteq_size. intros k Hk.
  apply elem_of_list_to_set, Hkeys, elem_of_dom. exact Hk.
Qed.

Lemma size_within_bound (m : gmap nat string) (n : nat) :
  (forall i, is_Some (m !! i) -> (i < n)%nat) ->
  (size m <= n)%nat.
Proof.
  intros Hkeys. rewrite <- (length_seq n 0%nat).
  apply size_within_list; [apply NoDup_seq|].
  intros i Hi. apply elem_of_seq. specialize (Hkeys i Hi). lia.
Qed.

Lemma flattened_keys_NoDup (dayPlan : option DayPlan) :
  NoDup (map key (flattenListeningQuiz dayPlan)).
Proof.
  apply sorted_keys_NoDup.
  - rewrite flattenListeningQuiz_concat.
    apply (segments_sorted 0 (getListeningSegments dayPlan)).
  - apply Forall_forall. intros x Hx.
    apply flattenListeningQuiz_elem in Hx as (_ & _ & _ & Hkey). exact Hkey.
Qed.

Lemma answersWithin_scores (dayPlan : DayPlan) (s : Session) :
  answersWithin dayPlan s ->
  (0 <= vocabScoreOf dayPlan s <= 1)%Q
  /\ (0 <= grammarScoreOf dayPlan s <= 1)%Q
  /\ (0 <= listeningScoreOf dayPlan s <= 1)%Q.
Proof.
  intros [Hvc Hvk Hgc Hgk Hlc Hlk].
  pose proof (size_within_bound _ _ Hvk) as Hv.
  pose proof (size_within_bound _ _ Hgk) as Hg.
  pose proof (size_within_list _ _ (flattened_keys_NoDup (Some dayPlan)) Hlk) as Hl.
  rewrite length_map in Hl.
  unfold vocabScoreOf, grammarScoreOf, listeningScoreOf.
  repeat split; apply ratioOrOne_unit; lia.
Qed.

Lemma answersWithin_fresh (dayPlan : DayPlan) : answersWithin dayPlan freshSession.
Proof.
  constructor; simpl; try (rewrite map_size_empty; lia);
    intros k [c Hc]; rewrite lookup_empty in Hc; discriminate.
Qed.

Lemma answersWithin_withOutput (dayPlan : DayPlan) (s : Session) (t : string)
    (rep : option Report) (res : option Result) :
  answersWithin dayPlan s -> answersWithin dayPlan (withOutput t rep res s).
Proof. intros [? ? ? ? ? ?]. constructor; assumption. Qed.

Lemma locked_false `{Countable K} (chosen : gmap K string) (k : K) :
  locked chosen k = false -> chosen !! k = None.
Proof. unfold locked. destruct (chosen !! k); [discriminate | reflexivity]. Qed.

Lemma recorded_count `{Countable K} (chosen : gmap K string) (k : K) (c : string)
    (correct : Z) (hit : bool) :
  chosen !! k = None ->
  0 <= correct <= Z.of_nat (size chosen) ->
  0 <= (if hit then correct + 1 else correct)
  <= Z.of_nat (size (<[k := c]> chosen)).
Proof.
  intros Hfree Hcount. rewrite map_size_insert_None by exact Hfree.
  destruct hit; lia.
Qed.

Lemma recorded_keys `{Countable K} (chosen : gmap K string) (k : K) (c : string)
    (P : K -> Prop) :
  P k ->
  (forall j, is_Some (chosen !! j) -> P j) ->
  forall j, is_Some (<[k := c]> chosen !! j) -> P j.
Proof.
  intros Hk Hkeys j Hj. apply lookup_insert_is_Some in Hj as [<- | [_ Hj]]; auto.
Qed.

Lemma clickVocabChoice_within (dayPlan : DayPlan) (i : nat) (q : VocabQuestion)
    (c : string) (s : Session) :
  vocab_quiz dayPlan !! i = Some q ->
  answersWithin dayPlan s -> answersWithin dayPlan (clickVocabChoice i q c s).
Proof.
  intros Hq Hs. unfold clickVocabChoice.
  destruct (locked (vocabChosen s) i) eqn:Hlocked; [exact Hs|].
  apply locked_false in Hlocked. destruct Hs as [Hvc Hvk Hgc Hgk Hlc Hlk].
  constructor; simpl; try assumption.
  - apply recorded_count; assumption.
  - apply recorded_keys; [|exact Hvk].
    apply lookup_lt_Some in Hq. exact Hq.
Qed.

Lemma clickGrammarChoice_within (dayPlan : DayPlan) (i : nat) (q : Question)
    (c : string) (s : Session) :
  g_quiz (grammar dayPlan) !! i = Some q ->
  answersWithin dayPlan s -> answersWithin dayPlan (clickGrammarChoice i q c s).
Proof.
  intros Hq Hs. unfold clickGrammarChoice.
  destruct (locked (grammarChosen s) i) eqn:Hlocked; [exact Hs|].
  apply locked_false in Hlocked. destruct Hs as [Hvc Hvk Hgc Hgk Hlc Hlk].
  constructor; simpl; try assumption.
  - apply recorded_count; assumption.
  - apply recorded_keys; [|exact Hgk].
    apply lookup_lt_Some in Hq. exact Hq.
Qed.

Lemma clickListeningChoice_within (dayPlan : DayPlan) (idx : nat)
    (item : FlatQuestion) (c : string) (s : Session) :
  flattenListeningQuiz (Some dayPlan) !! idx = Some item ->
  answersWithin dayPlan s -> answersWithin dayPlan (clickListeningChoice item c s).
Proof.
  intros Hitem Hs. unfold clickListeningChoice.
  destruct (locked (listeningChosen s) (key item)) eqn:Hlocked; [exact Hs|].
  apply locked_false in Hlocked. destruct Hs as [Hvc Hvk Hgc Hgk Hlc Hlk].
  constructor; simpl; try assumption.
  - apply recorded_count; assumption.
  - apply recorded_keys; [|exact Hlk].
    apply list_elem_of_fmap_2. apply list_elem_of_lookup_2 in Hitem. exact Hitem.
Qed.

Section Scores.

Variable regexTest : string -> string -> bool.
Variable dayPlans : list DayPlan.

Lemma dayPlanOf_safeDay (p p' : Progress) :
  safeDay p = safeDay p' -> dayPlanOf dayPlans p = dayPlanOf dayPlans p'.
Proof. unfold dayPlanOf. intros ->. reflexivity. Qed.

Lemma handle_within (dayPlan : DayPlan) (e : Event) (st : App) :
  answersWithin dayPlan (app_session st) ->
  answersWithin dayPlan (app_session (handle regexTest dayPlan e st)).
Proof.
  intros Hs. destruct e; cbn [handle]; try exact Hs.
  - destruct (vocab_quiz dayPlan !! i) eqn:Hq; [|exact Hs].
    apply (clickVocabChoice_within dayPlan i v c _ Hq Hs).
  - destruct (g_quiz (grammar dayPlan) !! i) eqn:Hq; [|exact Hs].
    apply (clickGrammarChoice_within dayPlan i q c _ Hq Hs).
  - destruct (flattenListeningQuiz (Some dayPlan) !! idx) eqn:Hq; [|exact Hs].
    apply (clickListeningChoice_within dayPlan idx f c _ Hq Hs).
  - apply answersWithin_withOutput. exact Hs.
  - unfold checkWritingRules.
    destruct (evaluateOutput regexTest dayPlan (outputText (app_session st))).
    apply answersWithin_withOutput. exact Hs.
  - unfold checkPassAndUnlock.
    destruct (passed (verdict regexTest dayPlan (app_session st)));
      apply answersWithin_withOutput; exact Hs.
Qed.

Lemma step_within (st : App) (e : Event) :
  (forall dayPlan, dayPlanOf dayPlans (app_progress st) = Some dayPlan ->
                   answersWithin dayPlan (app_session st)) ->
  forall dayPlan,
    dayPlanOf dayPlans (app_progress (step regexTest dayPlans st e)) = Some dayPlan ->
    answersWithin dayPlan (app_session (step regexTest dayPlans st e)).
Proof.
  intros Hinv dayPlan. unfold step, dayChangeEffect.
  set (st' := match dayPlanOf dayPlans (app_progress st) with
              | Some dp => handle regexTest dp e st
              | None => match e with
                        | Reset => withProgress defaultProgress st
                        | _ => st
                        end
              end).
  destruct (Z.eqb_spec (safeDay (app_progress st)) (safeDay (app_progress st')))
    as [Hsame|Hother].
  - rewrite <- (dayPlanOf_safeDay _ _ Hsame). intros Hplan.
    subst st'. rewrite Hplan. apply handle_within, Hinv, Hplan.
  - intros _. apply answersWithin_fresh.
Qed.

Lemma run_within (events : list Event) (st : App) :
  (forall dayPlan, dayPlanOf dayPlans (app_progress st) = Some dayPlan ->
                   answersWithin dayPlan (app_session st)) ->
  forall dayPlan,
    dayPlanOf dayPlans (app_progress (run regexTest dayPlans st events)) = Some dayPlan ->
    answersWithin dayPlan (app_session (run regexTest dayPlans st events)).
Proof.
  unfold run. revert st.
  induction events as [|e es IH]; intros st Hst; simpl; [exact Hst|].
  apply IH. intros dp. apply step_within. exact Hst.
Qed.

(** X11. Within a session, from the day's fresh state, no answer count
    exceeds the number of answered questions and every answered question
    belongs to the day's quiz, so each of the three scores stays between 0
    and 1 whatever the learner clicks, types or navigates. *)
Theorem scores_stay_within_unit (p : Progress) (events : list Event)
    (dayPlan : DayPlan) :
  let st :=
    run regexTest dayPlans {| app_progress := p; app_session := freshSession |} events in
  dayPlanOf dayPlans (app_progress st) = Some dayPlan ->
  answersWithin dayPlan (app_session st)
  /\ (0 <= vocabScoreOf dayPlan (app_session st) <= 1)%Q
  /\ (0 <= grammarScoreOf dayPlan (app_session st) <= 1)%Q
  /\ (0 <= listeningScoreOf dayPlan (app_session st) <= 1)%Q.
Proof.
  cbv zeta. intros Hplan.
  assert (Hend : answersWithin dayPlan
    (app_session (run regexTest dayPlans
                    {| app_progress := p; app_session := freshSession |} events))).
  { apply run_within; [|exact Hplan]. intros dp _. apply answersWithin_fresh. }
  split; [exact Hend | apply answersWithin_scores; exact Hend].
Qed.

End Scores.

Lemma scores_stay_within_unit_witness :
  (0 <= vocabScoreOf Sample.day1 (app_session SampleRun.ready) <= 1)%Q.
Proof.
  apply (scores_stay_within_unit Sample.noRegex [Sample.day1; Sample.day2]
           defaultProgress SampleRun.answers Sample.day1).
  reflexivity.
Defined.

(** ** The speech queue over a session *)

Module SpeechRunFacts.
Import Speech.

Section Run.

Variable speakThrows : Utterance -> bool.

Lemma speakNext_from_stopToken (queue : list string) (myToken : Z) (st : Tts) :
  stopToken (speakNext_from speakThrows queue myToken st) = stopToken st.
Proof.
  revert st. induction queue as [|next rest IH]; intros st; simpl.
  - destruct (negb (stopToken st =? myToken)%Z); reflexivity.
  - destruct (negb (stopToken st =? myToken)%Z); [reflexivity|].
    destruct (negb (Js.truthy next)); [reflexivity|].
    destruct (speakThrows _); [rewrite IH|]; reflexivity.
Qed.

Lemma speakNext_from_tokensBounded (queue : list string) (myToken : Z) (st : Tts) :
  tokensBounded st -> tokensBounded (speakNext_from speakThrows queue myToken st).
Proof.
  unfold tokensBounded. revert st.
  induction queue as [|next rest IH]; intros st Hst; simpl.
  - destruct (negb (stopToken st =? myToken)%Z); exact Hst.
  - destruct (Z.eqb_spec (stopToken st) myToken) as [Heq|Hne]; [|exact Hst].
    simpl. destruct (negb (Js.truthy next)); [exact Hst|].
    destruct (speakThrows _).
    + apply IH. exact Hst.
    + simpl. apply Forall_app. split; [exact Hst|].
      constructor; [simpl; lia | constructor].
Qed.

Lemma act_stopToken (st : Tts) (x : Action) :
  stopToken st <= stopToken (act speakThrows st x).
Proof.
  destruct x; simpl.
  - unfold speakTextsAsQueue. destruct (negb (ttsSupported st)); [lia|].
    destruct (length _ =? 0)%nat; [simpl; lia|].
    unfold speakNext. rewrite speakNext_from_stopToken. simpl. lia.
  - lia.
  - lia.
  - unfold onend. destruct (negb _); [lia|].
    unfold speakNext. rewrite speakNext_from_stopToken. lia.
  - unfold onerror. destruct (negb _); [lia|].
    unfold speakNext. rewrite speakNext_from_stopToken. lia.
Qed.

Lemma stopSpeaking_tokensBounded (st : Tts) :
  tokensBounded st ->
  Forall (fun u => u_token u < stopToken (stopSpeaking st)) (engine (stopSpeaking st)).
Proof.
  unfold tokensBounded. simpl. intros Hst.
  eapply Forall_impl; [exact Hst|]. intros u Hu. cbv beta in Hu. lia.
Qed.

Lemma act_tokensBounded (st : Tts) (x : Action) :
  tokensBounded st -> tokensBounded (act speakThrows st x).
Proof.
  intros Hst. destruct x; simpl.
  - unfold speakTextsAsQueue. destruct (negb (ttsSupported st)); [exact Hst|].
    assert (Hstop : tokensBounded (stopSpeaking st)).
    { eapply Forall_impl; [apply stopSpeaking_tokensBounded; exact Hst|].
      intros u Hu. cbv beta in Hu. lia. }
    destruct (length _ =? 0)%nat; [exact Hstop|].
    apply speakNext_from_tokensBounded. exact Hstop.
  - eapply Forall_impl; [apply stopSpeaking_tokensBounded; exact Hst|].
    intros u Hu. cbv beta in Hu. lia.
  - exact Hst.
  - unfold onend. destruct (negb _); [exact Hst|].
    apply speakNext_from_tokensBounded. exact Hst.
  - unfold onerror. destruct (negb _); [exact Hst|].
    apply speakNext_from_tokensBounded. exact Hst.
Qed.

Lemma perform_tokensBounded (xs : list Action) (st : Tts) :
  tokensBounded st -> tokensBounded (perform speakThrows st xs).
Proof.
  unfold perform. revert st.
  induction xs as [|x xs IH]; intros st Hst; simpl; [exact Hst|].
  apply IH, act_tokensBounded, Hst.
Qed.

(** X12. The stop token only grows, and no utterance ever handed to the
    engine carries a token beyond the live one: this holds after any
    sequence of plays, stops and engine callbacks, in whatever order they
    arrive. *)
Theorem tokens_never_run_ahead (supported : bool) (xs : list Action) :
  let st := perform speakThrows (initial supported) xs in
  tokensBounded st
  /\ 0 <= stopToken st
  /\ (forall x, stopToken st <= stopToken (act speakThrows st x))
  /\ stopToken (act speakThrows st Stop) = stopToken st + 1.
Proof.
  cbv zeta. split; [|split; [|split]].
  - apply perform_tokensBounded. constructor.
  - unfold perform.
    assert (Hmono : forall st, stopToken st <= stopToken (fold_left (act speakThrows) xs st)).
    { induction xs as [|x xs' IH]; intros st; simpl; [lia|].
      etransitivity; [apply (act_stopToken st x) | apply IH]. }
    apply (Hmono (initial supported)).
  - intros x. apply act_stopToken.
  - reflexivity.
Qed.

Lemma late_callback_after_stop (st : Tts) (x : Action) (u : Utterance) :
  callbackFor x = Some u ->
  u_token u < stopToken st ->
  utterQueue st = [] -> currentUtter st = None ->
  let st' := act speakThrows st x in
  engine st' = engine st /\ stopToken st' = stopToken st
  /\ utterQueue st' = [] /\ currentUtter st' = None.
Proof.
  intros Hx Hstale Hq Hc. cbv zeta.
  destruct x; simpl in Hx; try discriminate; injection Hx as ->; simpl.
  - auto.
  - unfold onend. destruct (Z.eqb_spec (stopToken st) (u_token u)); [lia|]. auto.
  - unfold onerror. destruct (Z.eqb_spec (stopToken st) (u_token u)); [lia|]. auto.
Qed.

(** X13. After a stop nothing more is spoken: from any state in which the
    tokens are bounded (every state of a run is), once [stopSpeaking] is
    called, no sequence of late callbacks of utterances handed to the
    engine before hands it another utterance, refills the queue or moves the
    token. *)
Theorem nothing_spoken_after_stop (st : Tts) (callbacks : list Action) :
  tokensBounded st ->
  Forall (fun x => exists u, callbackFor x = Some u /\ In u (engine st)) callbacks ->
  let st' := perform speakThrows (stopSpeaking st) callbacks in
  engine st' = engine st
  /\ utterQueue st' = []
  /\ currentUtter st' = None
  /\ stopToken st' = stopToken st + 1.
Proof.
  intros Hst Hcbs. cbv zeta.
  pose proof (stopSpeaking_tokensBounded st Hst) as Hstale.
  assert (Hgen : forall s,
    engine s = engine st -> stopToken s = stopToken st + 1 ->
    utterQueue s = [] -> currentUtter s = None ->
    engine (perform speakThrows s callbacks) = engine st
    /\ utterQueue (perform speakThrows s callbacks) = []
    /\ currentUtter (perform speakThrows s callbacks) = None
    /\ stopToken (perform speakThrows s callbacks) = stopToken st + 1).
  { unfold perform.
    induction Hcbs as [|x cbs (u & Hx & Hu) _ IH]; intros s He Ht Hq Hc; simpl.
    - auto.
    - assert (Hlt : u_token u < stopToken s).
      { rewrite Ht. simpl in Hstale. rewrite Forall_forall in Hstale.
        apply Hstale. apply list_elem_of_In. exact Hu. }
      destruct (late_callback_after_stop s x u Hx Hlt Hq Hc) as (He' & Ht' & Hq' & Hc').
      apply IH; congruence. }
  apply Hgen; reflexivity.
Qed.

End Run.

Lemma nothing_spoken_after_stop_witness :
  let accept := fun _ : Utterance => false in
  let a := {| u_text := "a"; u_token := 1 |} in
  let playing := perform accept (initial true) [Play ["a"; "b"]; Started a] in
  engine (perform accept (stopSpeaking playing) [Ended a; Started a; Failed a])
  = engine playing.
Proof.
  cbv zeta.
  apply (nothing_spoken_after_stop (fun _ => false)
           (perform (fun _ => false) (initial true)
              [Play ["a"; "b"]; Started {| u_text := "a"; u_token := 1 |}])
           [Ended {| u_text := "a"; u_token := 1 |};
            Started {| u_text := "a"; u_token := 1 |};
            Failed {| u_text := "a"; u_token := 1 |}]).
  - repeat constructor; simpl; lia.
  - repeat constructor; eexists; (split; [reflexivity | left; reflexivity]).
Defined.

End SpeechRunFacts.

(** *** Playing a queue to its end *)

Module SpeechDrainFacts.
Import Speech.

Section Drain.

Variable speakThrows : Utterance -> bool.

Lemma nonBlank_truthy (t : string) : nonBlank t = true -> Js.truthy t = true.
Proof. destruct t; [discriminate | reflexivity]. Qed.

Lemma acceptedOf_cons (token : Z) (next : string) (rest : list string) :
  acceptedOf speakThrows token (next :: rest)
  = if speakThrows {| u_text := next; u_token := token |}
    then acceptedOf speakThrows token rest
    else {| u_text := next; u_token := token |} :: acceptedOf speakThrows token rest.
Proof.
  unfold acceptedOf. simpl.
  destruct (speakThrows {| u_text := next; u_token := token |}); reflexivity.
Qed.

Lemma acceptedOf_token (token : Z) (queue : list string) (v : Utterance)
    (vs : list Utterance) :
  acceptedOf speakThrows token queue = v :: vs -> u_token v = token.
Proof.
  induction queue as [|next rest IH]; [discriminate|].
  rewrite acceptedOf_cons.
  destruct (speakThrows _); [exact IH|]. intros [= <- _]. reflexivity.
Qed.

(** What one call of [speakNext] does to a queue of non-empty texts: it
    hands the engine the first utterance that [speak] accepts, and goes idle
    when there is none. *)
Lemma speakNext_from_accepts (queue : list string) (token : Z) (st : Tts) :
  stopToken st = token ->
  Forall (fun t => Js.truthy t = true) queue ->
  utterQueue st = queue ->
  let st' := speakNext_from speakThrows queue token st in
  stopToken st' = token
  /\ Forall (fun t => Js.truthy t = true) (utterQueue st')
  /\ match acceptedOf speakThrows token queue with
     | [] => engine st' = engine st /\ utterQueue st' = []
             /\ currentUtter st' = None /\ isSpeaking st' = false
     | v :: vs => engine st' = (engine st ++ [v])%list
                  /\ currentUtter st' = Some v
                  /\ acceptedOf speakThrows token (utterQueue st') = vs
     end.
Proof.
  cbv zeta. revert st.
  induction queue as [|next rest IH]; intros st Htok Htruthy Hq.
  - simpl. rewrite Htok, Z.eqb_refl. simpl.
    rewrite Hq. repeat split; auto.
  - apply Forall_cons in Htruthy as [Hnext Hrest].
    rewrite acceptedOf_cons. simpl. rewrite Htok, Z.eqb_refl, Hnext. simpl.
    destruct (speakThrows {| u_text := next; u_token := token |}).
    + specialize (IH (setCurrentUtter
                        (Some {| u_text := next; u_token := token |})
                        (setUtterQueue rest st)) Htok Hrest eq_refl).
      exact IH.
    + simpl. repeat split; auto.
Qed.

Lemma finishCurrent_live (st : Tts) (v : Utterance) :
  currentUtter st = Some v -> u_token v = stopToken st ->
  finishCurrent speakThrows st
  = speakNext_from speakThrows (utterQueue st) (stopToken st) st.
Proof.
  intros Hc Hv. unfold finishCurrent, onend, speakNext.
  rewrite Hc, Hv, Z.eqb_refl. reflexivity.
Qed.

Lemma drain (vs : list Utterance) (token : Z) (st : Tts) (v : Utterance) :
  stopToken st = token ->
  Forall (fun t => Js.truthy t = true) (utterQueue st) ->
  currentUtter st = Some v -> u_token v = token ->
  acceptedOf speakThrows token (utterQueue st) = vs ->
  (forall k, (k <= length vs)%nat ->
     engine (Nat.iter k (finishCurrent speakThrows) st) = (engine st ++ take k vs)%list)
  /\ (let stN := Nat.iter (S (length vs)) (finishCurrent speakThrows) st in
      engine stN = (engine st ++ vs)%list /\ utterQueue stN = []
      /\ currentUtter stN = None /\ isSpeaking stN = false).
Proof.
  revert st v. induction vs as [|w ws IH]; intros st v Htok Htruthy Hc Hv Hacc.
  - pose proof (speakNext_from_accepts (utterQueue st) token st Htok Htruthy eq_refl)
      as (_ & _ & Hidle).
    rewrite Hacc in Hidle. split.
    + intros k Hk. assert (k = 0)%nat as -> by (simpl in Hk; lia).
      simpl. rewrite app_nil_r. reflexivity.
    + cbv zeta. simpl Nat.iter.
      rewrite (finishCurrent_live st v Hc) by congruence.
      rewrite Htok, app_nil_r. exact Hidle.
  - pose proof (speakNext_from_accepts (utterQueue st) token st Htok Htruthy eq_refl)
      as (Htok1 & Htruthy1 & Hnext).
    rewrite Hacc in Hnext. destruct Hnext as (He1 & Hc1 & Hacc1).
    pose proof (acceptedOf_token token (utterQueue st) w ws Hacc) as Hw.
    rewrite <- Htok in He1, Hc1, Hacc1, Htok1, Htruthy1.
    rewrite <- (finishCurrent_live st v Hc) in He1, Hc1, Hacc1, Htok1, Htruthy1
      by congruence.
    rewrite Htok in Htok1, Hacc1.
    destruct (IH (finishCurrent speakThrows st) w Htok1 Htruthy1 Hc1 Hw Hacc1)
      as [Hsteps Hend].
    split.
    + intros k Hk. destruct k as [|k]; [simpl; rewrite app_nil_r; reflexivity|].
      rewrite Nat.iter_succ_r, Hsteps by (simpl in Hk; lia).
      rewrite He1, <- app_assoc. reflexivity.
    + cbv zeta in *. simpl length. rewrite Nat.iter_succ_r.
      destruct Hend as (He & Hq & Hcu & Hsp).
      rewrite He, He1, <- app_assoc. auto.
Qed.

(** X14. A queue is played in order, one utterance at a time, to its end.
    With the engine reporting the end of each utterance it was handed,
    [speakTextsAsQueue] hands over exactly the non-blank texts that [speak]
    accepts, in their order, each one only after the end of the one before;
    a text on which [speak] throws is skipped without stopping the rest; and
    after the last end the controller is idle. *)
Theorem queue_is_played_in_order (texts : list string) (st : Tts) :
  ttsSupported st = true ->
  let accepted :=
    acceptedOf speakThrows (stopToken st + 1) (List.filter nonBlank texts) in
  let st1 := speakTextsAsQueue speakThrows texts st in
  (forall k, (k < length accepted)%nat ->
     engine (Nat.iter k (finishCurrent speakThrows) st1)
     = (engine st ++ take (S k) accepted)%list)
  /\ (let stN := Nat.iter (length accepted) (finishCurrent speakThrows) st1 in
      engine stN = (engine st ++ accepted)%list /\ utterQueue stN = []
      /\ currentUtter stN = None /\ isSpeaking stN = false).
Proof.
  intros Hsup. cbv zeta. unfold speakTextsAsQueue. rewrite Hsup. cbn [negb].
  assert (Htruthy : Forall (fun t => Js.truthy t = true) (List.filter nonBlank texts)).
  { apply Forall_forall. intros t Ht. apply list_elem_of_In in Ht.
    apply filter_In in Ht as [_ Ht]. apply nonBlank_truthy. exact Ht. }
  destruct (Nat.eqb_spec (length (List.filter nonBlank texts)) 0) as [Hempty|Hne].
  - apply length_zero_iff_nil in Hempty. rewrite Hempty.
    change (acceptedOf speakThrows (stopToken st + 1) []) with (@nil Utterance).
    simpl. rewrite app_nil_r. split; [intros k Hk; lia | auto].
  - unfold speakNext.
    cbn [utterQueue setUtterQueue stopToken stopSpeaking
         setCurrentUtter setIsSpeaking bumpStopToken].
    pose proof (speakNext_from_accepts (List.filter nonBlank texts) (stopToken st + 1)
                  (setUtterQueue (List.filter nonBlank texts) (stopSpeaking st))
                  eq_refl Htruthy eq_refl) as (Htok1 & Htruthy1 & Hnext).
    destruct (acceptedOf speakThrows (stopToken st + 1) (List.filter nonBlank texts))
      as [|v vs] eqn:Hacc.
    + split; [intros k Hk; simpl in Hk; lia|].
      simpl Nat.iter. rewrite app_nil_r. exact Hnext.
    + destruct Hnext as (He1 & Hc1 & Hacc1).
      pose proof (acceptedOf_token _ _ _ _ Hacc) as Hv.
      destruct (drain vs (stopToken st + 1) _ v Htok1 Htruthy1 Hc1 Hv Hacc1)
        as [Hsteps Hend].
      split.
      * intros k Hk. simpl in Hk. rewrite Hsteps by lia.
        rewrite He1. simpl engine. rewrite <- app_assoc. reflexivity.
      * cbv zeta in Hend. destruct Hend as (He & Hq & Hcu & Hsp).
        simpl length. rewrite He, He1. simpl engine.
        rewrite <- app_assoc. auto.
Qed.

End Drain.

Lemma queue_is_played_in_order_witness :
  let st1 := speakTextsAsQueue Sample2.rejectB ["a"; "  "; "b"; "c"] (initial true) in
  engine (Nat.iter 2 (finishCurrent Sample2.rejectB) st1)
  = [ {| u_text := "a"; u_token := 1 |}; {| u_text := "c"; u_token := 1 |} ].
Proof.
  cbv zeta.
  pose proof (queue_is_played_in_order Sample2.rejectB ["a"; "  "; "b"; "c"]
                (initial true) eq_refl) as [_ Hend].
  destruct Hend as (He & _). exact He.
Defined.

End SpeechDrainFacts.

(** *** Playing nothing *)

Lemma filter_nonBlank_blank (texts : list string) :
  Forall (fun t => Js.trim t = EmptyString) texts ->
  List.filter Speech.nonBlank texts = [].
Proof.
  induction 1 as [|t texts Ht _ IH]; simpl; [reflexivity|].
  unfold Speech.nonBlank at 1. rewrite Ht. simpl. exact IH.
Qed.

(** X15. Playing a list with no text in it (empty, or blank texts only)
    is a stop: it cancels what was playing and bumps the token, and hands
    the engine nothing. Where speech is not supported, playing does
    nothing at all, not even that. *)
Theorem playing_nothing_is_a_stop (speakThrows : Speech.Utterance -> bool)
    (texts : list string) (st : Speech.Tts) :
  (Speech.ttsSupported st = false ->
   Speech.speakTextsAsQueue speakThrows texts st = st)
  /\ (Speech.ttsSupported st = true ->
      Forall (fun t => Js.trim t = EmptyString) texts ->
      Speech.speakTextsAsQueue speakThrows texts st = Speech.stopSpeaking st).
Proof.
  unfold Speech.speakTextsAsQueue. split.
  - intros ->. reflexivity.
  - intros -> Hblank. rewrite (filter_nonBlank_blank texts Hblank). reflexivity.
Qed.

Lemma playing_nothing_is_a_stop_witness :
  Speech.speakTextsAsQueue Sample2.rejectB [""; "   "] (Speech.initial true)
  = Speech.stopSpeaking (Speech.initial true)
  /\ Speech.speakTextsAsQueue Sample2.rejectB ["a"] (Speech.initial false)
     = Speech.initial false.
Proof.
  split.
  - apply (playing_nothing_is_a_stop Sample2.rejectB [""; "   "] (Speech.initial true));
      [reflexivity|]. repeat constructor.
  - apply (playing_nothing_is_a_stop Sample2.rejectB ["a"] (Speech.initial false)).
    reflexivity.
Defined.

(** *** The texts of a narration *)

Lemma pushTimes_replicate (rep : nat) (text : string) (texts : list string) :
  pushTimes rep text texts = (texts ++ replicate rep text)%list.
Proof.
  revert texts. induction rep as [|rep IH]; intros texts; simpl.
  - rewrite app_nil_r. reflexivity.
  - rewrite IH, <- app_assoc. reflexivity.
Qed.

Lemma repeatOf_positive (seg : Segment) : 1 <= repeatOf seg.
Proof. unfold repeatOf. lia. Qed.

Lemma allListeningTexts_concat (segs : list Segment) :
  allListeningTexts segs
  = mjoin (map (fun seg => replicate (Z.to_nat (repeatOf seg)) (seg_text seg)) segs).
Proof.
  unfold allListeningTexts, forEach.
  rewrite (forEach_from_ext _
             (fun seg (_ : nat) texts =>
                (texts ++ replicate (Z.to_nat (repeatOf seg)) (seg_text seg))%list)).
  - rewrite (forEach_from_push
               (fun (_ : nat) seg => replicate (Z.to_nat (repeatOf seg)) (seg_text seg))).
    simpl. f_equal.
    apply (imap_const (fun seg => replicate (Z.to_nat (repeatOf seg)) (seg_text seg))).
  - intros seg i texts. apply pushTimes_replicate.
Qed.

(** X16. "Play full listening" queues the text of every segment, in
    segment order, [repeat] times each and at least once, a [repeat] of 0 or
    below counting as 1; "Play segment" for an index with no segment does
    nothing. *)
Theorem narration_texts (speakThrows : Speech.Utterance -> bool)
    (segs : list Segment) :
  allListeningTexts segs
  = mjoin (map (fun seg => replicate (Z.to_nat (Z.max 1 (seg_repeat seg))) (seg_text seg))
               segs)
  /\ (forall seg, seg ∈ segs -> seg_text seg ∈ allListeningTexts segs)
  /\ (length segs <= length (allListeningTexts segs))%nat
  /\ (forall i st, segs !! i = None -> speakOneSegment speakThrows segs i st = st).
Proof.
  assert (Hrep : forall seg, Z.max 1 (seg_repeat seg) = repeatOf seg).
  { intros seg. unfold repeatOf.
    destruct (Z.eqb_spec (seg_repeat seg) 0) as [->|]; reflexivity. }
  rewrite allListeningTexts_concat.
  split; [|split; [|split]].
  - f_equal. apply map_ext. intros seg. rewrite Hrep. reflexivity.
  - intros seg Hseg. apply list_elem_of_join.
    exists (replicate (Z.to_nat (repeatOf seg)) (seg_text seg)). split.
    + apply elem_of_replicate. split; [reflexivity|].
      pose proof (repeatOf_positive seg). lia.
    + apply (list_elem_of_fmap_2
               (fun seg => replicate (Z.to_nat (repeatOf seg)) (seg_text seg))).
      exact Hseg.
  - induction segs as [|seg segs IH]; simpl; [lia|].
    rewrite length_app, length_replicate.
    pose proof (repeatOf_positive seg). simpl in IH. lia.
  - intros i st Hnone. unfold speakOneSegment. rewrite Hnone. reflexivity.
Qed.

Lemma narration_texts_witness :
  seg_text (Sample.seg 1 None) ∈
    allListeningTexts [Sample.seg 1 None; Sample.seg 2 None].
Proof.
  apply (narration_texts Sample2.rejectB [Sample.seg 1 None; Sample.seg 2 None]).
  apply list_elem_of_In. left. reflexivity.
Defined.

(** ** Saving and loading *)

Module PersistFacts.
Import Store Persist.

(** X17. What [saveProgress] writes, [loadProgress] reads back: where
    storage is accessible and [JSON.parse] inverts [JSON.stringify] on the
    progress object, saving a progress and loading gives that progress, and
    no other key of the storage is touched. Where storage is not accessible
    [saveProgress] throws: it has no handler of its own. *)
Theorem save_then_load (JSON_parse : string -> Outcome Json)
    (JSON_stringify : Json -> string) (p : Progress) (ls : LocalStorage) :
  JSON_stringify (progressObject (stored p)) <> EmptyString ->
  JSON_parse (JSON_stringify (progressObject (stored p)))
  = Return (progressObject (stored p)) ->
  (accessible ls = true ->
   exists ls',
     saveProgress JSON_stringify (stored p) ls = Return ls'
     /\ loadProgress JSON_parse ls' = Return (stored p)
     /\ forall k, k <> STORAGE_KEY -> items ls' !! k = items ls !! k)
  /\ (accessible ls = false ->
      saveProgress JSON_stringify (stored p) ls = Throw SecurityError).
Proof.
  intros Hnonempty Hparse. unfold saveProgress, setItem. split; intros ->.
  - eexists. split; [reflexivity|]. split.
    + unfold loadProgress, getItem. cbn [accessible items].
      cbn [mbind outcome_bind bind].
      rewrite lookup_insert_eq.
      destruct (JSON_stringify (progressObject (stored p))) as [|c text] eqn:Htext;
        [congruence|].
      cbn [mbind outcome_bind bind]. rewrite Hparse. reflexivity.
    + intros k Hk. cbn [items]. apply lookup_insert_ne. congruence.
  - reflexivity.
Qed.

Lemma save_then_load_witness :
  exists ls',
    saveProgress Sample2.toyStringify (stored (mkProgress 3 4 "quiz"))
                 Sample2.emptyStorage = Return ls'
    /\ loadProgress Sample2.toyParse2 ls' = Return (stored (mkProgress 3 4 "quiz")).
Proof.
  destruct (save_then_load Sample2.toyParse2 Sample2.toyStringify
              (mkProgress 3 4 "quiz") Sample2.emptyStorage) as [Hsave _].
  - discriminate.
  - reflexivity.
  - destruct (Hsave eq_refl) as (ls' & Hs & Hl & _). exists ls'. split; assumption.
Defined.

End PersistFacts.

(** ** The transcript and the size of the listening quiz *)

Lemma join_empty (sep x : string) (xs : list string) :
  join sep (x :: xs) = EmptyString -> x = EmptyString.
Proof.
  destruct xs as [|y ys]; simpl; [auto|].
  destruct x; [reflexivity | discriminate].
Qed.

Lemma answered_is_counted (chosen : gmap string string) (k : string) :
  is_Some (chosen !! k) -> (0 <? size chosen)%nat = true.
Proof.
  intros [c Hc]. apply Nat.ltb_lt.
  destruct (size chosen) eqn:Hsize; [|lia].
  apply map_size_empty_inv in Hsize. subst chosen.
  rewrite lookup_empty in Hc. discriminate.
Qed.

(** X18. The transcript is hidden on a fresh day and shown from the first
    click on a listening choice on; its text is empty exactly when the day
    has no listening segment. *)
Theorem transcript_visibility (dayPlan : option DayPlan) :
  showTranscript freshSession = false
  /\ (forall item c s, showTranscript (clickListeningChoice item c s) = true)
  /\ (buildTranscript dayPlan = EmptyString <-> getListeningSegments dayPlan = []).
Proof.
  split; [reflexivity|]. split.
  - intros item c s. unfold showTranscript. apply (answered_is_counted _ (key item)).
    unfold clickListeningChoice, locked.
    destruct (listeningChosen s !! key item) as [c'|] eqn:Hc.
    + rewrite Hc. eauto.
    + simpl. rewrite lookup_insert_eq. eauto.
  - unfold buildTranscript. split.
    + destruct (getListeningSegments dayPlan) as [|seg segs]; [reflexivity|].
      simpl map. intros Hjoin. apply join_empty in Hjoin. discriminate.
    + intros ->. reflexivity.
Qed.

Lemma flattened_length (F : nat -> Segment -> list FlatQuestion) (segs : list Segment) :
  (forall i seg, length (F i seg) = length (quizOf seg)) ->
  length (mjoin (imap F segs)) = sum_list (map (fun seg => length (quizOf seg)) segs).
Proof.
  revert F. induction segs as [|seg segs IH]; intros F HF; simpl; [reflexivity|].
  rewrite length_app, HF, IH; [reflexivity|].
  intros i seg'. apply HF.
Qed.

(** X19. The flattened listening quiz has as many questions as the
    segments have together, a segment without [quiz] counting for none; so a
    day without listening block has no listening question and its listening
    score is 1 whatever was counted. *)
Theorem listening_quiz_size (dayPlan : DayPlan) (s : Session) :
  length (flattenListeningQuiz (Some dayPlan))
  = sum_list (map (fun seg => length (quizOf seg))
                  (getListeningSegments (Some dayPlan)))
  /\ (listening dayPlan = None ->
      flattenListeningQuiz (Some dayPlan) = []
      /\ listeningScoreOf dayPlan s = 1%Q).
Proof.
  split.
  - rewrite flattenListeningQuiz_concat. apply flattened_length.
    intros i seg. apply length_imap.
  - intros Hnone.
    assert (Hflat : flattenListeningQuiz (Some dayPlan) = []).
    { rewrite flattenListeningQuiz_concat. unfold getListeningSegments.
      simpl. rewrite Hnone. reflexivity. }
    split; [exact Hflat|]. unfold listeningScoreOf. rewrite Hflat. reflexivity.
Qed.

Lemma listening_quiz_size_witness :
  listeningScoreOf (Sample.plan 1 None) (app_session SampleRun.ready) = 1%Q.
Proof.
  apply (listening_quiz_size (Sample.plan 1 None) (app_session SampleRun.ready)).
  reflexivity.
Defined.

(** ** Letter case *)

Lemma toLowerCase_unit_idem (c : ascii) :
  Js.toLowerCase_unit (Js.toLowerCase_unit c) = Js.toLowerCase_unit c.
Proof. destruct c as [[] [] [] [] [] [] [] []]; vm_compute; reflexivity. Qed.

Lemma toLowerCase_idem (s : string) :
  Js.toLowerCase (Js.toLowerCase s) = Js.toLowerCase s.
Proof.
  induction s as [|c s IH]; simpl; [reflexivity|].
  rewrite toLowerCase_unit_idem, IH. reflexivity.
Qed.

Lemma includesAny_by_lower (h h' : string) (ws ws' : list string) :
  Js.toLowerCase h = Js.toLowerCase h' ->
  map Js.toLowerCase ws = map Js.toLowerCase ws' ->
  includesAny h ws = includesAny h' ws'.
Proof.
  unfold includesAny, normalize. intros -> Hws.
  revert ws' Hws. induction ws as [|w ws IH]; intros [|w' ws'] Hws;
    try discriminate; [reflexivity|].
  simpl in Hws. injection Hws as Hw Hws. simpl. rewrite Hw, (IH ws' Hws). reflexivity.
Qed.

Lemma countVocabUsed_by_lower (h h' : string) (ws ws' : list string) :
  Js.toLowerCase h = Js.toLowerCase h' ->
  map Js.toLowerCase ws = map Js.toLowerCase ws' ->
  countVocabUsed h ws = countVocabUsed h' ws'.
Proof.
  unfold countVocabUsed, normalize. intros -> Hws.
  generalize 0. revert ws' Hws.
  induction ws as [|w ws IH]; intros [|w' ws'] Hws n;
    try discriminate; [reflexivity|].
  simpl in Hws. injection Hws as Hw Hws. simpl. rewrite Hw. apply IH. exact Hws.
Qed.

(** X20. Keywords and vocabulary are matched without regard to letter
    case, on both sides: two texts with the same lower-case form, checked
    against two word lists with the same lower-case forms, get the same
    keyword verdict and the same vocabulary count; in particular the
    lower-cased text and words get those of the original. *)
Theorem matching_ignores_case (h h' : string) (ws ws' : list string) :
  Js.toLowerCase h = Js.toLowerCase h' ->
  map Js.toLowerCase ws = map Js.toLowerCase ws' ->
  includesAny h ws = includesAny h' ws'
  /\ countVocabUsed h ws = countVocabUsed h' ws'
  /\ includesAny (Js.toLowerCase h) (map Js.toLowerCase ws) = includesAny h ws
  /\ countVocabUsed (Js.toLowerCase h) (map Js.toLowerCase ws) = countVocabUsed h ws.
Proof.
  intros Hh Hws.
  assert (Hmap : map Js.toLowerCase (map Js.toLowerCase ws) = map Js.toLowerCase ws).
  { rewrite map_map. apply map_ext. intros w. apply toLowerCase_idem. }
  split; [apply includesAny_by_lower; assumption|].
  split; [apply countVocabUsed_by_lower; assumption|].
  split.
  - apply includesAny_by_lower; [apply toLowerCase_idem | exact Hmap].
  - apply countVocabUsed_by_lower; [apply toLowerCase_idem | exact Hmap].
Qed.

Lemma matching_ignores_case_witness :
  includesAny "Die SCHULE ist gross." ["Schule"]
  = includesAny "die schule ist GROSS." ["SCHULE"].
Proof.
  apply (matching_ignores_case "Die SCHULE ist gross." "die schule ist GROSS."
           ["Schule"] ["SCHULE"]); reflexivity.
Defined.

(** ** Unlocking needs answers *)

Lemma ratioOrOne_nothing_correct (total : nat) :
  total <> 0%nat -> (ratioOrOne 0 total <= 0)%Q.
Proof.
  intros Hn. unfold ratioOrOne.
  destruct (Nat.eqb_spec total 0) as [|_]; [contradiction|].
  unfold Qle, Qdiv, Qmult, inject_Z. simpl. lia.
Qed.

Lemma threshold_not_met (threshold score : Q) :
  (0 < threshold)%Q -> (score <= 0)%Q -> Qle_bool threshold score = false.
Proof.
  intros Hpos Hzero. destruct (Qle_bool threshold score) eqn:Hle; [|reflexivity].
  apply Qle_bool_iff in Hle. exfalso.
  apply (Qlt_irrefl 0). eapply Qlt_le_trans; [exact Hpos|].
  eapply Qle_trans; [exact Hle | exact Hzero].
Qed.

(** X21. A quiz with questions and a positive threshold blocks the day
    until something is answered correctly: with no correct answer counted
    in the vocabulary quiz (or the grammar quiz, or the listening quiz) the
    verdict is a fail whatever the text, and "Check and unlock" leaves the
    progress as it is. *)
Theorem unanswered_quiz_blocks_unlock (regexTest : string -> string -> bool)
    (dayPlans : list DayPlan) (dayPlan : DayPlan) (st : App) :
  dayPlanOf dayPlans (app_progress st) = Some dayPlan ->
  (vocab_quiz dayPlan <> [] /\ (0 < vocabMinCorrect (passRules dayPlan))%Q
   /\ vocabCorrect (app_session st) = 0)
  \/ (g_quiz (grammar dayPlan) <> [] /\ (0 < grammarMinCorrect (passRules dayPlan))%Q
      /\ grammarCorrect (app_session st) = 0)
  \/ (flattenListeningQuiz (Some dayPlan) <> []
      /\ (0 < listeningMinCorrect (passRules dayPlan))%Q
      /\ listeningCorrect (app_session st) = 0) ->
  passed (verdict regexTest dayPlan (app_session st)) = false
  /\ app_progress (step regexTest dayPlans st CheckAndUnlock) = app_progress st.
Proof.
  intros Hplan Hblock.
  assert (Hfail : passed (verdict regexTest dayPlan (app_session st)) = false).
  { unfold verdict. cbn [passed].
    destruct Hblock as [(Hq & Hpos & Hzero) | [(Hq & Hpos & Hzero) | (Hq & Hpos & Hzero)]].
    - rewrite (threshold_not_met _ (vocabScoreOf dayPlan (app_session st)) Hpos);
        [reflexivity|].
      unfold vocabScoreOf. rewrite Hzero. apply ratioOrOne_nothing_correct.
      destruct (vocab_quiz dayPlan); [congruence | discriminate].
    - rewrite (threshold_not_met _ (grammarScoreOf dayPlan (app_session st)) Hpos);
        [rewrite andb_false_r; reflexivity|].
      unfold grammarScoreOf. rewrite Hzero. apply ratioOrOne_nothing_correct.
      destruct (g_quiz (grammar dayPlan)); [congruence | discriminate].
    - rewrite (threshold_not_met _ (listeningScoreOf dayPlan (app_session st)) Hpos);
        [rewrite andb_false_r; reflexivity|].
      unfold listeningScoreOf. rewrite Hzero. apply ratioOrOne_nothing_correct.
      destruct (flattenListeningQuiz (Some dayPlan)); [congruence | discriminate]. }
  split; [exact Hfail|].
  unfold step. rewrite Hplan, dayChangeEffect_progress. cbn [handle].
  unfold checkPassAndUnlock. rewrite Hfail. reflexivity.
Qed.

Lemma unanswered_quiz_blocks_unlock_witness :
  let written :=
    run Sample.noRegex [Sample.day1; Sample.day2] SampleRun.start
      [SetMode "quiz"; TypeOutput Sample.text] in
  app_progress (step Sample.noRegex [Sample.day1; Sample.day2] written CheckAndUnlock)
  = app_progress written.
Proof.
  cbv zeta.
  apply (unanswered_quiz_blocks_unlock Sample.noRegex [Sample.day1; Sample.day2]
           Sample.day1).
  - reflexivity.
  - left. split; [discriminate|]. split; reflexivity.
Defined.

(** ** Loading an object *)

(** X22. A stored object is loaded member by member and without
    validation: each of [currentDay], [maxUnlockedDay] and [mode] that is
    present and not [null] is returned as stored, whatever its type, and
    each one that is missing or [null] gets its default. *)
Theorem object_loads_memberwise (JSON_parse : string -> Store.Outcome Store.Json)
    (ls : Store.LocalStorage) (text : string)
    (members : list (string * Store.Json)) :
  Store.accessible ls = true ->
  Store.items ls !! Store.STORAGE_KEY = Some text ->
  text <> EmptyString ->
  JSON_parse text = Store.Return (Store.JObj members) ->
  Store.loadProgress JSON_parse ls
  = Store.Return
      (mkProgress
         (Store.nullish (Store.member "currentDay" members) (Store.JNum 1))
         (Store.nullish (Store.member "maxUnlockedDay" members) (Store.JNum 1))
         (Store.nullish (Store.member "mode" members) (Store.JStr "learn"))).
Proof.
  intros Hacc Hitem Hne Hparse. destruct text as [|c text]; [congruence|].
  apply (StoreFacts.loadProgress_object JSON_parse ls c text members);
    assumption.
Qed.

Lemma object_loads_memberwise_witness :
  Store.loadProgress Sample2.toyParse2 (StoreSpec.storing "{}")
  = Store.Return (Persist.stored (mkProgress 3 4 "quiz")).
Proof.
  rewrite (object_loads_memberwise Sample2.toyParse2 (StoreSpec.storing "{}") "{}"
             [("currentDay", Store.JNum (inject_Z 3));
              ("maxUnlockedDay", Store.JNum (inject_Z 4));
              ("mode", Store.JStr "quiz")]).
  - reflexivity.
  - reflexivity.
  - reflexivity.
  - discriminate.
  - reflexivity.
Defined.
